(** * servicefabric: a shallow embedding of the Service Fabric REST client

    The Go package [servicefabric] is one file, [servicefabric.go].  It
    builds URLs, issues GET and POST requests through an injected HTTP
    client, decodes JSON and XML, and follows continuation tokens.

    The embedding keeps the shape of the Go code:
    - a Go [string] or [[]byte] is a [string] (a list of bytes);
    - a Go [int] status code is a [Z];
    - a pointer that may be [nil] is an [option];
    - a slice is a [list] ([nil] and the empty slice are both [[]]: the
      code only ranges over slices and appends to them);
    - a [map[string]string] is a [gmap string string], and a map result
      that may be [nil] is an [option] of it;
    - a Go function returning [(v, err)] returns a pair whose second
      component is an [option Error];
    - the network is an explicit state: every request goes through the
      injected client's [Run] and is appended to a log;
    - [for { ... }] is a fuelled iteration of the loop body. *)

From Stdlib Require Import ZArith String Ascii List Lia.
From Stdlib Require Import DecimalString.
From stdpp Require Import base option list strings gmap fin_maps.

Local Open Scope string_scope.
Local Open Scope list_scope.
Local Open Scope stdpp_scope.

(** ** Data model (lines 19-177) *)

Module Model.

(** [[]interface{}] fields hold whatever [encoding/json] decodes into an
    empty interface. *)
#[warnings="-register-all"]
Inductive JSONAny : Type :=
| JNull
| JBool (b : bool)
| JNumber (literal : string)
| JString (s : string)
| JArray (xs : list JSONAny)
| JObject (fields : list (string * JSONAny)).

Record AppParameter := {
  AppParameter_Key : string;
  AppParameter_Value : string }.

Record ApplicationItem := {
  ApplicationItem_HealthState : string;
  ApplicationItem_ID : string;
  ApplicationItem_Name : string;
  ApplicationItem_Parameters : list (option AppParameter);
  ApplicationItem_Status : string;
  ApplicationItem_TypeName : string;
  ApplicationItem_TypeVersion : string }.

Record ApplicationItemsPage := {
  ApplicationItemsPage_ContinuationToken : option string;
  ApplicationItemsPage_Items : list ApplicationItem }.

Record ServiceItem := {
  ServiceItem_HasPersistedState : bool;
  ServiceItem_HealthState : string;
  ServiceItem_ID : string;
  ServiceItem_IsServiceGroup : bool;
  ServiceItem_ManifestVersion : string;
  ServiceItem_Name : string;
  ServiceItem_ServiceKind : string;
  ServiceItem_ServiceStatus : string;
  ServiceItem_TypeName : string }.

Record ServiceItemsPage := {
  ServiceItemsPage_ContinuationToken : option string;
  ServiceItemsPage_Items : list ServiceItem }.

Record KeyValuePair := {
  KeyValuePair_Key : string;
  KeyValuePair_Value : string }.

Record ServiceTypeDescription := {
  IsStateful : bool;
  ServiceTypeName : string;
  PlacementConstraints : string;
  HasPersistedState : bool;
  Kind : string;
  Extensions : list KeyValuePair;
  LoadMetrics : list JSONAny;
  ServicePlacementPolicies : list JSONAny }.

Record ServiceType := {
  ServiceType_ServiceTypeDescription : ServiceTypeDescription;
  ServiceManifestVersion : string;
  ServiceManifestName : string;
  ServiceType_IsServiceGroup : bool }.

Record Metadata := {
  CustomTypeID : string;
  LastModifiedUtcTimestamp : string;
  Parent : string;
  SequenceNumber : string;
  SizeInBytes : Z;
  TypeID : string }.

Record PropValue := {
  PropValue_Data : string;
  PropValue_Kind : string }.

Record Property := {
  Property_Metadata : Metadata;
  Property_Name : string;
  Property_Value : PropValue }.

Record PropertiesListPage := {
  PropertiesListPage_ContinuationToken : string;
  IsConsistent : bool;
  Properties : list Property }.

(** The anonymous struct of [ServiceExtensionLabels.Label]. *)
Record LabelEntry := {
  Label_Value : string;
  Label_Key : string }.

Record ServiceExtensionLabels := {
  Label : list LabelEntry }.

(** [ServiceExtensionLabels{}] *)
Definition zeroServiceExtensionLabels : ServiceExtensionLabels :=
  {| Label := [] |}.

End Model.
Export Model.

(** ** Errors

    Every [errors.New] and [fmt.Errorf] of the file is one constructor,
    carrying the values the format string prints. *)

Inductive Error : Type :=
| ErrEndpointMissing                         (* line 191 *)
| ErrInvalidClient                           (* lines 379, 406, 434 *)
| ErrConnect (cause : string) (url : string) (* lines 390, 417, 444 *)
| ErrStatus (status : Z) (url : string)      (* lines 393, 447 *)
| ErrEmptyBody                               (* lines 398, 452 *)
| ErrJSON (detail : string)                  (* lines 216, 241, 290, 348 *)
| ErrXML (detail : string)                   (* line 299 *)
| ErrRequestingExtensions (cause : Error)    (* line 284 *)
| ErrClusterHealth.                          (* lines 257, 266, 275 *)

(** [%d] of a Go [int]. *)
Definition itoa (n : Z) : string := NilZero.string_of_int (Z.to_int n).

(** The text of [err.Error()]. *)
Fixpoint errorString (e : Error) : string :=
  match e with
  | ErrEndpointMissing => "endpoint missing for httpClient configuration"
  | ErrInvalidClient => "invalid http client provided"
  | ErrConnect cause url =>
      "failed to connect to Service Fabric server " +:+ cause +:+ " on " +:+ url
  | ErrStatus status url =>
      "Service Fabric responded with error code " +:+ itoa status
        +:+ " to request " +:+ url +:+ " with body"
  | ErrEmptyBody => "empty response body from Service Fabric"
  | ErrJSON detail => "could not deserialise JSON response: " +:+ detail
  | ErrXML detail => "could not deserialise extension's XML value: " +:+ detail
  | ErrRequestingExtensions cause =>
      "error requesting service extensions: " +:+ errorString cause
  | ErrClusterHealth => "error getting cluster health"
  end.

(** [http.StatusOK] *)
Definition StatusOK : Z := 200.

(** [DefaultAPIVersion] (line 15) *)
Definition DefaultAPIVersion : string := "3.0".

(** ** The injected HTTP client and the world it acts on

    [requests.HTTPClient] is not part of the package.  A request
    [NewRequest(method, url).Into(&text).StatusInto(&status).Run()]
    fills [text] and [status] and returns an error; the server behind it
    may answer differently each time, so [Run] threads a state [T]. *)

Inductive Method : Type := GET | POST.

Record RunResult := {
  run_err : option string;   (* the error returned by [Run()], its text *)
  run_status : Z;            (* what [StatusInto] received *)
  run_text : string }.       (* what [Into] received *)

Record HTTPClient (T : Type) := {
  Run : Method -> string -> T -> RunResult * T }.
Arguments Run {T} _ _ _ _.

(** What a decoder was asked to decode. *)
Inductive DecodeCall : Type :=
| JSONUnmarshal (data : string)
| XMLUnmarshal (data : string).

Record World (T : Type) := {
  net : T;                              (* state of the remote side *)
  requests : list (Method * string);    (* requests issued so far *)
  decodes : list DecodeCall }.          (* decoder calls made so far *)
Arguments net {T} _.
Arguments requests {T} _.
Arguments decodes {T} _.

(** A computation either returns or is still running when the fuel of an
    enclosing [for { }] is spent. *)
Inductive Outcome (A : Type) : Type :=
| Returns (a : A)
| OutOfFuel.
Arguments Returns {A} a.
Arguments OutOfFuel {A}.

Definition M (T A : Type) : Type := World T -> Outcome A * World T.

Definition ret {T A} (a : A) : M T A := fun w => (Returns a, w).

Definition bind {T A B} (m : M T A) (k : A -> M T B) : M T B :=
  fun w =>
    match m w with
    | (Returns a, w') => k a w'
    | (OutOfFuel, w') => (OutOfFuel, w')
    end.

Notation "'let*' x ':=' m 'in' k" := (bind m (fun x => k))
  (at level 10, x pattern, m at level 100, k at level 200).

(** One iteration of a [for { }] body either goes round again with the
    loop variables updated or leaves the function with its results. *)
Inductive LoopStep (S R : Type) : Type :=
| Next (s : S)
| Return (r : R).
Arguments Next {S R} s.
Arguments Return {S R} r.

Fixpoint forever {T S R} (fuel : nat) (body : S -> M T (LoopStep S R)) (s : S)
  : M T R :=
  match fuel with
  | O => fun w => (OutOfFuel, w)
  | Datatypes.S fuel' =>
      let* step := body s in
      match step with
      | Next s' => forever fuel' body s'
      | Return r => ret r
      end
  end.

Definition terminated {A} (o : Outcome A) : Prop :=
  match o with Returns _ => True | OutOfFuel => False end.

(** [Run()] on the client: the request is logged and answered. *)
Definition doRequest {T} (h : HTTPClient T) (m : Method) (url : string)
  : M T RunResult :=
  fun w =>
    let '(r, t') := Run h m url (net w) in
    (Returns r,
     {| net := t'; requests := requests w ++ [(m, url)]; decodes := decodes w |}).

(** [json.Unmarshal] and [xml.Unmarshal] belong to the Go library.  A JSON
    decoder into a fresh value of type [A] yields the value or the detail
    of the parse failure; the XML decoder updates the value it is given. *)
Class JSONDecoder (A : Type) := json_decode : string -> string + A.
Class XMLDecoder (R : Type) := xml_decode : string -> R -> option string * R.

Definition jsonUnmarshal {T A} `{JSONDecoder A} (data : string)
  : M T (string + A) :=
  fun w =>
    (Returns (json_decode data),
     {| net := net w; requests := requests w;
        decodes := decodes w ++ [JSONUnmarshal data] |}).

Definition xmlUnmarshal {T R} `{XMLDecoder R} (data : string) (target : R)
  : M T (R * option string) :=
  fun w =>
    (Returns (let '(err, target') := xml_decode data target in (target', err)),
     {| net := net w; requests := requests w;
        decodes := decodes w ++ [XMLUnmarshal data] |}).

(** ** The client (lines 179-202) *)

Record ServiceFabricClient (T : Type) := {
  endpoint : string;
  apiVersion : string;
  httpClient : option (HTTPClient T) }.
Arguments endpoint {T} _.
Arguments apiVersion {T} _.
Arguments httpClient {T} _.

Definition NewServiceFabricClient {T} (httpClient : option (HTTPClient T))
    (endpoint apiVersion : string)
  : option (ServiceFabricClient T) * option Error :=
  if String.eqb endpoint "" then (None, Some ErrEndpointMissing)
  else
    let apiVersion :=
      if String.eqb apiVersion "" then DefaultAPIVersion else apiVersion in
    (Some {| endpoint := endpoint;
             apiVersion := apiVersion;
             httpClient := httpClient |}, None).

(** ** Query parameters and URLs (lines 422-430, 458-480) *)

Definition queryParamsFunc : Type := list string -> list string.

Definition getString (str : option string) : string :=
  match str with
  | None => ""
  | Some s => s
  end.

Definition withParam (name value : string) : queryParamsFunc :=
  fun params => params ++ [name +:+ "=" +:+ value].

Definition noOp : queryParamsFunc := fun params => params.

Definition withContinue (token : string) : queryParamsFunc :=
  if Nat.eqb (String.length token) 0 then noOp
  else withParam "continue" token.

Definition getURL {T} (c : ServiceFabricClient T) (basePath : string)
    (paramsFuncs : list queryParamsFunc) : string :=
  let params :=
    fold_left (fun params paramsFunc => paramsFunc params) paramsFuncs
              ["api-version=" +:+ apiVersion c] in
  endpoint c +:+ "/" +:+ basePath +:+ "?" +:+ String.concat "&" params.

(** ** Transport adapter (lines 377-457) *)

Section Transport.
Context {T : Type}.

Definition getHTTP (c : ServiceFabricClient T) (basePath : string)
    (paramsFuncs : list queryParamsFunc) : M T (string * option Error) :=
  match httpClient c with
  | None => ret ("", Some ErrInvalidClient)
  | Some h =>
      let url := getURL c basePath paramsFuncs in
      let* r := doRequest h GET url in
      match run_err r with
      | Some err => ret ("", Some (ErrConnect err url))
      | None =>
          if negb (run_status r =? StatusOK)%Z
          then ret ("", Some (ErrStatus (run_status r) url))
          else if Nat.eqb (String.length (run_text r)) 0
          then ret ("", Some ErrEmptyBody)
          else ret (run_text r, None)
      end
  end.

Definition getHTTPRaw (c : ServiceFabricClient T) (basePath : string)
  : M T (Z * option Error) :=
  match httpClient c with
  | None => ret ((-1)%Z, Some ErrInvalidClient)
  | Some h =>
      let url := getURL c basePath [] in
      let* r := doRequest h GET url in
      match run_err r with
      | Some err => ret ((-1)%Z, Some (ErrConnect err url))
      | None => ret (run_status r, None)
      end
  end.

(** [postHTTP] (lines 432-457).  Its parameter [body []byte] is shadowed by
    [var body interface{}] and is never sent, and no caller passes one, so
    the embedding has none; the reply is read as in [getHTTP], of which
    this function is a copy.  The three error returns are those of the
    text.  The last line, [[]byte(body)] of an [interface{}], has no
    meaning in Go: what is returned without error is a reading of it,
    and nothing below is stated about it. *)
Definition postHTTP (c : ServiceFabricClient T) (basePath : string)
    (paramsFuncs : list queryParamsFunc) : M T (string * option Error) :=
  match httpClient c with
  | None => ret ("", Some ErrInvalidClient)
  | Some h =>
      let url := getURL c basePath paramsFuncs in
      let* r := doRequest h POST url in
      match run_err r with
      | Some err => ret ("", Some (ErrConnect err url))
      | None =>
          if negb (run_status r =? StatusOK)%Z
          then ret ("", Some (ErrStatus (run_status r) url))
          else if Nat.eqb (String.length (run_text r)) 0
          then ret ("", Some ErrEmptyBody)
          else ret (run_text r, None)
      end
  end.

End Transport.

(** ** Domain operations (lines 204-375) *)

Section Operations.
Context {T : Type}.
Context `{JSONDecoder ApplicationItemsPage} `{JSONDecoder ServiceItemsPage}.
Context `{JSONDecoder (list ServiceType)} `{JSONDecoder PropertiesListPage}.

(** [strings.EqualFold] *)
Variable EqualFold : string -> string -> bool.

(** [res == http.StatusOK] at lines 269 and 278 compares the [[]byte] that
    [postHTTP] returns with an [int].  Go gives that comparison no meaning,
    so its outcome is left open. *)
Variable bytesEqualStatus : string -> Z -> bool.

Implicit Type c : ServiceFabricClient T.

(** The loop variables of [GetApplications] are [continueToken] and
    [aggregateAppItemsPages].  [break] leaves the loop for the
    [return &aggregateAppItemsPages, nil] that follows it. *)
Definition GetApplications_body c
    (vars : string * ApplicationItemsPage)
  : M T (LoopStep (string * ApplicationItemsPage)
                  (option ApplicationItemsPage * option Error)) :=
  let '(continueToken, aggregateAppItemsPages) := vars in
  let* (res, err) := getHTTP c "Applications/" [withContinue continueToken] in
  match err with
  | Some err => ret (Return (None, Some err))
  | None =>
      let* decoded := jsonUnmarshal res in
      match decoded with
      | inl detail => ret (Return (None, Some (ErrJSON detail)))
      | inr appItemsPage =>
          let aggregateAppItemsPages :=
            {| ApplicationItemsPage_ContinuationToken :=
                 ApplicationItemsPage_ContinuationToken aggregateAppItemsPages;
               ApplicationItemsPage_Items :=
                 ApplicationItemsPage_Items aggregateAppItemsPages
                   ++ ApplicationItemsPage_Items appItemsPage |} in
          let continueToken :=
            getString (ApplicationItemsPage_ContinuationToken appItemsPage) in
          if String.eqb continueToken ""
          then ret (Return (Some aggregateAppItemsPages, None))
          else ret (Next (continueToken, aggregateAppItemsPages))
      end
  end.

Definition GetApplications (fuel : nat) c
  : M T (option ApplicationItemsPage * option Error) :=
  forever fuel (GetApplications_body c)
    ("", {| ApplicationItemsPage_ContinuationToken := None;
            ApplicationItemsPage_Items := [] |}).

Definition GetServices_body c (appName : string)
    (vars : string * ServiceItemsPage)
  : M T (LoopStep (string * ServiceItemsPage)
                  (option ServiceItemsPage * option Error)) :=
  let '(continueToken, aggregateServiceItemsPages) := vars in
  let* (res, err) :=
    getHTTP c ("Applications/" +:+ appName +:+ "/$/GetServices")
      [withContinue continueToken] in
  match err with
  | Some err => ret (Return (None, Some err))
  | None =>
      let* decoded := jsonUnmarshal res in
      match decoded with
      | inl detail => ret (Return (None, Some (ErrJSON detail)))
      | inr servicesItemsPage =>
          let aggregateServiceItemsPages :=
            {| ServiceItemsPage_ContinuationToken :=
                 ServiceItemsPage_ContinuationToken aggregateServiceItemsPages;
               ServiceItemsPage_Items :=
                 ServiceItemsPage_Items aggregateServiceItemsPages
                   ++ ServiceItemsPage_Items servicesItemsPage |} in
          let continueToken :=
            getString (ServiceItemsPage_ContinuationToken servicesItemsPage) in
          if String.eqb continueToken ""
          then ret (Return (Some aggregateServiceItemsPages, None))
          else ret (Next (continueToken, aggregateServiceItemsPages))
      end
  end.

Definition GetServices (fuel : nat) c (appName : string)
  : M T (option ServiceItemsPage * option Error) :=
  forever fuel (GetServices_body c appName)
    ("", {| ServiceItemsPage_ContinuationToken := None;
            ServiceItemsPage_Items := [] |}).

Definition GetClusterHealth c : M T (bool * option Error) :=
  let* (res, err) := getHTTPRaw c "/$/GetClusterHealth?api-version=6.0&" in
  match err with
  | Some _ => ret (false, Some ErrClusterHealth)
  | None => ret ((res =? StatusOK)%Z, None)
  end.

Definition DeleteService c (serviceId : string) : M T (bool * option Error) :=
  let* (res, err) :=
    postHTTP c ("/Services/" +:+ serviceId +:+ "/$/Delete")
      [withParam "api-version" (apiVersion c)] in
  match err with
  | Some _ => ret (false, Some ErrClusterHealth)
  | None => ret (bytesEqualStatus res StatusOK, None)
  end.

Definition DeleteApplication c (applicationId : string)
  : M T (bool * option Error) :=
  let* (res, err) :=
    postHTTP c ("/Applications/" +:+ applicationId +:+ "/$/Delete")
      [withParam "api-version" (apiVersion c)] in
  match err with
  | Some _ => ret (false, Some ErrClusterHealth)
  | None => ret (bytesEqualStatus res StatusOK, None)
  end.

(** [GetServiceExtension] (lines 281-307).  [response] is the value the
    caller's pointer refers to; the function hands it back next to the
    error.  Each [range] loop yields [Some] results when the function
    returned from inside it and [None] when it ran to its end. *)
Section ServiceExtension.
Context {R : Type} `{XMLDecoder R}.

Fixpoint rangeExtensions (extensionKey : string)
    (extensions : list KeyValuePair) (response : R)
  : M T (option (R * option Error)) :=
  match extensions with
  | [] => ret None
  | extension :: rest =>
      if EqualFold (KeyValuePair_Key extension) extensionKey then
        let* (response, err) :=
          xmlUnmarshal (KeyValuePair_Value extension) response in
        match err with
        | Some detail => ret (Some (response, Some (ErrXML detail)))
        | None => ret (Some (response, None))
        end
      else rangeExtensions extensionKey rest response
  end.

Fixpoint rangeServiceTypes (serviceTypeName extensionKey : string)
    (serviceTypes : list ServiceType) (response : R)
  : M T (option (R * option Error)) :=
  match serviceTypes with
  | [] => ret None
  | serviceTypeInfo :: rest =>
      if String.eqb
           (ServiceTypeName (ServiceType_ServiceTypeDescription serviceTypeInfo))
           serviceTypeName
      then
        let* returned :=
          rangeExtensions extensionKey
            (Extensions (ServiceType_ServiceTypeDescription serviceTypeInfo))
            response in
        match returned with
        | Some results => ret (Some results)
        | None => rangeServiceTypes serviceTypeName extensionKey rest response
        end
      else rangeServiceTypes serviceTypeName extensionKey rest response
  end.

Definition GetServiceExtension c
    (appType applicationVersion serviceTypeName extensionKey : string)
    (response : R) : M T (R * option Error) :=
  let* (res, err) :=
    getHTTP c ("ApplicationTypes/" +:+ appType +:+ "/$/GetServiceTypes")
      [withParam "ApplicationTypeVersion" applicationVersion] in
  match err with
  | Some err => ret (response, Some (ErrRequestingExtensions err))
  | None =>
      let* decoded := jsonUnmarshal res in
      match decoded with
      | inl detail => ret (response, Some (ErrJSON detail))
      | inr serviceTypes =>
          let* returned :=
            rangeServiceTypes serviceTypeName extensionKey serviceTypes
              response in
          match returned with
          | Some results => ret results
          | None => ret (response, None)
          end
      end
  end.

End ServiceExtension.

(** [GetServiceExtensionMap] (lines 309-324).  [service] and [app] are the
    structs behind the two pointers, which the function dereferences
    without a check.  [extensionData.Label != nil] guards a [range] that
    does nothing on an empty slice. *)
Definition GetServiceExtensionMap `{XMLDecoder ServiceExtensionLabels} c
    (service : ServiceItem) (app : ApplicationItem) (extensionKey : string)
  : M T (option (gmap string string) * option Error) :=
  let extensionData := zeroServiceExtensionLabels in
  let* (extensionData, err) :=
    GetServiceExtension c (ApplicationItem_TypeName app)
      (ApplicationItem_TypeVersion app) (ServiceItem_TypeName service)
      extensionKey extensionData in
  match err with
  | Some err => ret (None, Some err)
  | None =>
      let labels : gmap string string := ∅ in
      let labels :=
        match Label extensionData with
        | [] => labels
        | _ :: _ =>
            fold_left (fun labels label =>
                         <[Label_Key label := Label_Value label]> labels)
                      (Label extensionData) labels
        end in
      ret (Some labels, None)
  end.

Definition nameExists c (propertyName : string) : M T (bool * option Error) :=
  let* (res, err) := getHTTPRaw c ("Names/" +:+ propertyName) in
  match err with
  | Some err => ret (false, Some err)
  | None => ret ((res =? StatusOK)%Z, None)
  end.

(** The [range] loop of lines 351-356 over one page. *)
Definition rangeProperties (page : list Property)
    (properties : gmap string string) : gmap string string :=
  fold_left
    (fun properties property =>
       if negb (String.eqb (PropValue_Kind (Property_Value property)) "String")
       then properties
       else <[Property_Name property :=
                PropValue_Data (Property_Value property)]> properties)
    page properties.

(** The loop variables of [GetProperties] are [continueToken] and
    [properties]. *)
Definition GetProperties_body c (name : string)
    (vars : string * gmap string string)
  : M T (LoopStep (string * gmap string string)
                  (bool * option (gmap string string) * option Error)) :=
  let '(continueToken, properties) := vars in
  let* (res, err) :=
    getHTTP c ("Names/" +:+ name +:+ "/$/GetProperties")
      [withContinue continueToken; withParam "IncludeValues" "true"] in
  match err with
  | Some err => ret (Return (false, None, Some err))
  | None =>
      let* decoded := jsonUnmarshal res in
      match decoded with
      | inl detail => ret (Return (false, None, Some (ErrJSON detail)))
      | inr propertiesListPage =>
          let properties :=
            rangeProperties (Properties propertiesListPage) properties in
          let continueToken :=
            PropertiesListPage_ContinuationToken propertiesListPage in
          if String.eqb continueToken ""
          then ret (Return (true, Some properties, None))
          else ret (Next (continueToken, properties))
      end
  end.

Definition GetProperties (fuel : nat) c (name : string)
  : M T (bool * option (gmap string string) * option Error) :=
  let* (nameExists, err) := nameExists c name in
  match err with
  | Some err => ret (false, None, Some err)
  | None =>
      if negb nameExists then ret (false, None, None)
      else forever fuel (GetProperties_body c name) ("", ∅)
  end.

End Operations.

(** ** Vocabulary of the statements

    One trip round a pagination loop is a [getHTTP] followed by a
    [json.Unmarshal]; [fetchPage] runs exactly these two calls and tells
    how the trip went. *)

Inductive PageFetch (P : Type) : Type :=
| FetchFailed (err : Error)       (* [getHTTP] returned an error *)
| DecodeFailed (detail : string)  (* [json.Unmarshal] returned an error *)
| Fetched (page : P).
Arguments FetchFailed {P} err.
Arguments DecodeFailed {P} detail.
Arguments Fetched {P} page.

Definition fetchPage {T P} `{JSONDecoder P} (c : ServiceFabricClient T)
    (basePath : string) (paramsFuncs : list queryParamsFunc)
  : M T (PageFetch P) :=
  let* (res, err) := getHTTP c basePath paramsFuncs in
  match err with
  | Some err => ret (FetchFailed err)
  | None =>
      let* decoded := jsonUnmarshal res in
      match decoded with
      | inl detail => ret (DecodeFailed detail)
      | inr page => ret (Fetched page)
      end
  end.

(** What the trip number [k] (from 0) of a loop fetches, when the loop
    started with [continueToken] in world [w] gets that far. *)
Fixpoint pageAt {T P} `{JSONDecoder P} (c : ServiceFabricClient T)
    (basePath : string) (paramsFuncs : string -> list queryParamsFunc)
    (tokenOf : P -> string) (k : nat) (continueToken : string) (w : World T)
  : option (PageFetch P) :=
  match fetchPage c basePath (paramsFuncs continueToken) w with
  | (Returns f, w') =>
      match k with
      | O => Some f
      | Datatypes.S k' =>
          match f with
          | Fetched page =>
              if String.eqb (tokenOf page) "" then None
              else pageAt c basePath paramsFuncs tokenOf k' (tokenOf page) w'
          | _ => None
          end
      end
  | (OutOfFuel, _) => None
  end.

(** The three ways a trip ends the loop. *)
Definition stopsLoop {P} (tokenOf : P -> string) (f : PageFetch P) : Prop :=
  match f with
  | FetchFailed _ => True
  | DecodeFailed _ => True
  | Fetched page => tokenOf page = ""
  end.

(** The two ways named by the sentence "some fetched page returns an
    empty or absent continuation token or a fetch returns an error". *)
Definition emptyTokenOrFetchError {P} (tokenOf : P -> string)
    (f : PageFetch P) : Prop :=
  match f with
  | FetchFailed _ => True
  | DecodeFailed _ => False
  | Fetched page => tokenOf page = ""
  end.

(** The remote side, from state [t] and asked with [continueToken],
    answers the successive requests of a loop with [pages]: every reply
    has status 200 and a body that decodes to the next page, every page
    but the last carries a token, the last carries none. *)
Fixpoint servesPages {T P} `{JSONDecoder P} (h : HTTPClient T)
    (url : string -> string) (tokenOf : P -> string)
    (continueToken : string) (t : T) (pages : list P) : Prop :=
  match pages with
  | [] => False
  | page :: rest =>
      let '(r, t') := Run h GET (url continueToken) t in
      run_err r = None /\ run_status r = StatusOK /\ run_text r <> "" /\
      json_decode (run_text r) = inr page /\
      match rest with
      | [] => tokenOf page = ""
      | _ :: _ =>
          tokenOf page <> "" /\
          servesPages h url tokenOf (tokenOf page) t' rest
      end
  end.

(** The URLs a loop asks for when it is served [pages]. *)
Fixpoint urlsAsked {P} (url : string -> string) (tokenOf : P -> string)
    (continueToken : string) (pages : list P) : list (Method * string) :=
  match pages with
  | [] => []
  | page :: rest =>
      (GET, url continueToken) :: urlsAsked url tokenOf (tokenOf page) rest
  end.

Definition applicationsURL {T} (c : ServiceFabricClient T) (token : string)
  : string :=
  getURL c "Applications/" [withContinue token].

Definition applicationsToken (page : ApplicationItemsPage) : string :=
  getString (ApplicationItemsPage_ContinuationToken page).

Definition servicesToken (page : ServiceItemsPage) : string :=
  getString (ServiceItemsPage_ContinuationToken page).

Definition propertiesURL {T} (c : ServiceFabricClient T) (name token : string)
  : string :=
  getURL c ("Names/" +:+ name +:+ "/$/GetProperties")
    [withContinue token; withParam "IncludeValues" "true"].

(** What one trip adds to the aggregate of [GetApplications] (line 219)
    and of [GetServices] (line 244). *)
Definition appendApplications (aggregate page : ApplicationItemsPage)
  : ApplicationItemsPage :=
  {| ApplicationItemsPage_ContinuationToken :=
       ApplicationItemsPage_ContinuationToken aggregate;
     ApplicationItemsPage_Items :=
       ApplicationItemsPage_Items aggregate ++ ApplicationItemsPage_Items page |}.

Definition appendServices (aggregate page : ServiceItemsPage)
  : ServiceItemsPage :=
  {| ServiceItemsPage_ContinuationToken :=
       ServiceItemsPage_ContinuationToken aggregate;
     ServiceItemsPage_Items :=
       ServiceItemsPage_Items aggregate ++ ServiceItemsPage_Items page |}.

(** The [(Name, Value.Data)] pairs of the properties whose kind is
    ["String"], in the order of the list. *)
Definition isStringProperty (property : Property) : bool :=
  String.eqb (PropValue_Kind (Property_Value property)) "String".

Definition stringPairs (properties : list Property) : list (string * string) :=
  map (fun property =>
         (Property_Name property, PropValue_Data (Property_Value property)))
      (List.filter isStringProperty properties).

(** The values paired with [key], in the order of the list. *)
Definition valuesOf (key : string) (pairs : list (string * string))
  : list string :=
  map snd (List.filter (fun pair => String.eqb (fst pair) key) pairs).

(** The extensions that [GetServiceExtension] may decode, in the order
    its two [range] loops meet them: those of the service types named
    [serviceTypeName], whose key equals [extensionKey] under
    [EqualFold]. *)
Definition matchingExtensions (EqualFold : string -> string -> bool)
    (serviceTypeName extensionKey : string) (serviceTypes : list ServiceType)
  : list KeyValuePair :=
  flat_map
    (fun serviceTypeInfo =>
       if String.eqb
            (ServiceTypeName (ServiceType_ServiceTypeDescription serviceTypeInfo))
            serviceTypeName
       then List.filter
              (fun extension => EqualFold (KeyValuePair_Key extension) extensionKey)
              (Extensions (ServiceType_ServiceTypeDescription serviceTypeInfo))
       else [])
    serviceTypes.

(** [xml.Unmarshal] of an extension's value into [response], with the
    error as [GetServiceExtension] wraps it. *)
Definition decodedInto {R} `{XMLDecoder R} (extension : KeyValuePair)
    (response : R) : R * option Error :=
  let '(err, response') := xml_decode (KeyValuePair_Value extension) response in
  (response', option_map ErrXML err).

(** The world after one more call of the XML decoder. *)
Definition xmlLogged {T} (w : World T) (data : string) : World T :=
  {| net := net w; requests := requests w;
     decodes := decodes w ++ [XMLUnmarshal data] |}.

(** The [(Key, Value)] pairs of the labels, in document order. *)
Definition labelPairs (extensionData : ServiceExtensionLabels)
  : list (string * string) :=
  map (fun label => (Label_Key label, Label_Value label)) (Label extensionData).

(** [sub] occurs in [s]. *)
Definition occursIn (sub s : string) : Prop :=
  exists before after, s = before +:+ sub +:+ after.

(** The query parameters of a URL, read the usual way and without
    unescaping: the query is what follows the first [?], its parameters
    are separated by [&], empty ones are skipped, and the name of a
    parameter ends at its first [=]. *)
Fixpoint containsChar (sep : ascii) (s : string) : bool :=
  match s with
  | EmptyString => false
  | String ch s' => Ascii.eqb ch sep || containsChar sep s'
  end.

(** What comes before the first [sep] and what comes after it, if there
    is one. *)
Fixpoint splitAt (sep : ascii) (s : string) : string * option string :=
  match s with
  | EmptyString => (EmptyString, None)
  | String ch s' =>
      if Ascii.eqb ch sep then (EmptyString, Some s')
      else let '(before, after) := splitAt sep s' in (String ch before, after)
  end.

(** The pieces of [s] between the occurrences of [sep]. *)
Fixpoint splitOn (sep : ascii) (s : string) : list string :=
  match s with
  | EmptyString => [EmptyString]
  | String ch s' =>
      if Ascii.eqb ch sep then EmptyString :: splitOn sep s'
      else match splitOn sep s' with
           | first :: rest => String ch first :: rest
           | [] => [String ch EmptyString]
           end
  end.

Definition queryParams (url : string) : list (string * string) :=
  match snd (splitAt "?" url) with
  | None => []
  | Some query =>
      map (fun parameter =>
             let '(name, value) := splitAt "=" parameter in
             (name, getString value))
          (List.filter (fun parameter => negb (String.eqb parameter ""))
                       (splitOn "&" query))
  end.

(** The value of the first parameter called [name]. *)
Definition queryParam (name url : string) : option string :=
  head (valuesOf name (queryParams url)).

(** The world after one more request, answered from state [t']. *)
Definition logged {T} (w : World T) (t' : T) (m : Method) (url : string)
  : World T :=
  {| net := t'; requests := requests w ++ [(m, url)]; decodes := decodes w |}.

(** The results of [getHTTP] (and of [postHTTP]) as a function of the
    reply to its one request. *)
Definition getHTTP_result (r : RunResult) (url : string) : string * option Error :=
  match run_err r with
  | Some err => ("", Some (ErrConnect err url))
  | None =>
      if negb (run_status r =? StatusOK)%Z
      then ("", Some (ErrStatus (run_status r) url))
      else if Nat.eqb (String.length (run_text r)) 0
      then ("", Some ErrEmptyBody)
      else (run_text r, None)
  end.

(** ** Replicas and instances (lines 83-119)

    [ReplicaItem] and [InstanceItem] embed a [*ReplicaItemBase], which may
    be [nil]; [GetReplicaData] hands the pointer back without following
    it.  The receiver is the struct behind [m]. *)

Record ReplicaItemBase := {
  ReplicaItemBase_Address : string;
  ReplicaItemBase_HealthState : string;
  LastInBuildDurationInSeconds : string;
  NodeName : string;
  ReplicaRole : string;
  ReplicaStatus : string;
  ReplicaItemBase_ServiceKind : string }.

Record ReplicaItem := {
  ReplicaItem_Base : option ReplicaItemBase;
  ReplicaItem_ID : string }.

Record InstanceItem := {
  InstanceItem_Base : option ReplicaItemBase;
  InstanceItem_ID : string }.

Definition ReplicaItem_GetReplicaData (m : ReplicaItem)
  : string * option ReplicaItemBase :=
  (ReplicaItem_ID m, ReplicaItem_Base m).

Definition InstanceItem_GetReplicaData (m : InstanceItem)
  : string * option ReplicaItemBase :=
  (InstanceItem_ID m, InstanceItem_Base m).

(** A parameter function that only adds parameters at the end, as
    [withParam], [withContinue] and [noOp] do. *)
Definition extendsParams (paramsFunc : queryParamsFunc) : Prop :=
  forall params, exists more, paramsFunc params = params ++ more.

Definition servicesURL {T} (c : ServiceFabricClient T) (appName token : string)
  : string :=
  getURL c ("Applications/" +:+ appName +:+ "/$/GetServices")
    [withContinue token].

(** ** Test doubles

    A scripted HTTP client and table-driven decoders, used to run the
    operations on concrete inputs. *)

Module Fixture.

Definition okReply (body : string) : RunResult :=
  {| run_err := None; run_status := 200; run_text := body |}.

Definition statusReply (status : Z) (body : string) : RunResult :=
  {| run_err := None; run_status := status; run_text := body |}.

Definition refused : RunResult :=
  {| run_err := Some "connection refused"; run_status := 0; run_text := "" |}.

(** Answers the successive requests with the replies of its script. *)
Definition scripted : HTTPClient (list RunResult) :=
  {| Run := fun _ _ script =>
              match script with
              | r :: script' => (r, script')
              | [] => (refused, [])
              end |}.

(** Answers every request with the same reply. *)
Definition constant (r : RunResult) : HTTPClient unit :=
  {| Run := fun _ _ t => (r, t) |}.

Definition client {T} (h : HTTPClient T) : ServiceFabricClient T :=
  {| endpoint := "http://localhost:19080";
     apiVersion := "3.0";
     httpClient := Some h |}.

Definition world {T} (t : T) : World T :=
  {| net := t; requests := []; decodes := [] |}.

Fixpoint fromTable {A} (table : list (string * A)) (data : string)
  : string + A :=
  match table with
  | [] => inl "invalid character"
  | (body, v) :: table' =>
      if String.eqb body data then inr v else fromTable table' data
  end.

Definition app (id : string) : ApplicationItem :=
  {| ApplicationItem_HealthState := "Ok";
     ApplicationItem_ID := id;
     ApplicationItem_Name := "fabric:/" +:+ id;
     ApplicationItem_Parameters := [];
     ApplicationItem_Status := "Ready";
     ApplicationItem_TypeName := id +:+ "Type";
     ApplicationItem_TypeVersion := "1.0.0" |}.

Definition appsPage1 : ApplicationItemsPage :=
  {| ApplicationItemsPage_ContinuationToken := Some "app2";
     ApplicationItemsPage_Items := [app "app1"; app "app2"] |}.

Definition appsPage2 : ApplicationItemsPage :=
  {| ApplicationItemsPage_ContinuationToken := None;
     ApplicationItemsPage_Items := [app "app2"; app "app3"] |}.

(** A page that always announces a next one. *)
Definition appsMore : ApplicationItemsPage :=
  {| ApplicationItemsPage_ContinuationToken := Some "app1";
     ApplicationItemsPage_Items := [app "app1"] |}.

Definition appsDecoder : JSONDecoder ApplicationItemsPage :=
  fromTable [("apps-1", appsPage1); ("apps-2", appsPage2);
             ("apps-more", appsMore)].

Definition service (id : string) : ServiceItem :=
  {| ServiceItem_HasPersistedState := false;
     ServiceItem_HealthState := "Ok";
     ServiceItem_ID := id;
     ServiceItem_IsServiceGroup := false;
     ServiceItem_ManifestVersion := "1.0.0";
     ServiceItem_Name := "fabric:/" +:+ id;
     ServiceItem_ServiceKind := "Stateless";
     ServiceItem_ServiceStatus := "Active";
     ServiceItem_TypeName := "WebType" |}.

Definition servicesPage1 : ServiceItemsPage :=
  {| ServiceItemsPage_ContinuationToken := Some "svc1";
     ServiceItemsPage_Items := [service "app1/svc1"] |}.

Definition servicesDecoder : JSONDecoder ServiceItemsPage :=
  fromTable [("services-1", servicesPage1)].

Definition property (name kind data : string) : Property :=
  {| Property_Metadata :=
       {| CustomTypeID := ""; LastModifiedUtcTimestamp := "";
          Parent := "fabric:/app1"; SequenceNumber := "1";
          SizeInBytes := Z.of_nat (String.length data); TypeID := kind |};
     Property_Name := name;
     Property_Value := {| PropValue_Data := data; PropValue_Kind := kind |} |}.

Definition propertiesPage1 : PropertiesListPage :=
  {| PropertiesListPage_ContinuationToken := "b";
     IsConsistent := true;
     Properties := [property "a" "String" "x"; property "b" "Int64" "5"] |}.

Definition propertiesPage2 : PropertiesListPage :=
  {| PropertiesListPage_ContinuationToken := "";
     IsConsistent := true;
     Properties := [property "c" "String" "z"] |}.

(** Two String properties under one name. *)
Definition propertiesRenamed : PropertiesListPage :=
  {| PropertiesListPage_ContinuationToken := "";
     IsConsistent := true;
     Properties := [property "a" "String" "x"; property "a" "String" "y"] |}.

(** ASCII case folding, for [strings.EqualFold] on ASCII keys. *)
Definition lower (ch : ascii) : ascii :=
  let n := nat_of_ascii ch in
  if andb (Nat.leb 65 n) (Nat.leb n 90) then ascii_of_nat (n + 32) else ch.

Fixpoint lowerString (s : string) : string :=
  match s with
  | EmptyString => EmptyString
  | String ch s' => String (lower ch) (lowerString s')
  end.

Definition asciiEqualFold (s t : string) : bool :=
  String.eqb (lowerString s) (lowerString t).

Definition serviceType (name : string) (extensions : list KeyValuePair)
  : ServiceType :=
  {| ServiceType_ServiceTypeDescription :=
       {| IsStateful := false; ServiceTypeName := name;
          PlacementConstraints := ""; HasPersistedState := false;
          Kind := "Stateless"; Extensions := extensions;
          LoadMetrics := []; ServicePlacementPolicies := [] |};
     ServiceManifestVersion := "1.0.0";
     ServiceManifestName := name +:+ "Pkg";
     ServiceType_IsServiceGroup := false |}.

Definition serviceTypes : list ServiceType :=
  [serviceType "ApiType"
     [{| KeyValuePair_Key := "traefik"; KeyValuePair_Value := "labels-api" |}];
   serviceType "WebType"
     [{| KeyValuePair_Key := "Other"; KeyValuePair_Value := "other" |};
      {| KeyValuePair_Key := "Traefik"; KeyValuePair_Value := "labels-web" |};
      {| KeyValuePair_Key := "TRAEFIK"; KeyValuePair_Value := "labels-shadowed" |}]].

Definition serviceTypesDecoder : JSONDecoder (list ServiceType) :=
  fromTable [("service-types", serviceTypes)].

Definition label (key value : string) : LabelEntry :=
  {| Label_Value := value; Label_Key := key |}.

(** Labels with a key that comes twice. *)
Definition webLabels : ServiceExtensionLabels :=
  {| Label := [label "env" "test"; label "port" "80"; label "env" "prod"] |}.

Definition labelsDecoder : XMLDecoder ServiceExtensionLabels :=
  fun data target =>
    match fromTable [("labels-web", webLabels)] data with
    | inr labels => (None, labels)
    | inl detail => (Some detail, target)
    end.

Definition propertiesDecoder : JSONDecoder PropertiesListPage :=
  fromTable [("properties-1", propertiesPage1);
             ("properties-2", propertiesPage2);
             ("properties-renamed", propertiesRenamed)].

End Fixture.

(** More test data. *)
Module Fixture2.

Definition servicesPage2 : ServiceItemsPage :=
  {| ServiceItemsPage_ContinuationToken := Some "";
     ServiceItemsPage_Items :=
       [Fixture.service "app1/svc2"; Fixture.service "app1/svc3"] |}.

Definition servicesDecoder : JSONDecoder ServiceItemsPage :=
  Fixture.fromTable [("services-1", Fixture.servicesPage1);
                     ("services-2", servicesPage2)].

(** A page of properties none of which is a String. *)
Definition numbers : list Property :=
  [Fixture.property "a" "Int64" "1"; Fixture.property "n" "Double" "2.5";
   Fixture.property "g" "Guid" "00000000-0000-0000-0000-000000000000"].

(** Two service types bear the same name; only the second has the
    extension. *)
Definition serviceTypesTwice : list ServiceType :=
  [Fixture.serviceType "WebType"
     [{| KeyValuePair_Key := "Other"; KeyValuePair_Value := "other" |}];
   Fixture.serviceType "WebType"
     [{| KeyValuePair_Key := "Traefik"; KeyValuePair_Value := "labels-web" |}]].

Definition serviceTypesDecoder : JSONDecoder (list ServiceType) :=
  Fixture.fromTable [("service-types-twice", serviceTypesTwice)].

End Fixture2.

(** * Theorems *)

(** ** The definitions at work *)

Example getURL_with_parameters :
  getURL (Fixture.client Fixture.scripted) "Names/app1/$/GetProperties"
    [withContinue "b"; withParam "IncludeValues" "true"] =
  "http://localhost:19080/Names/app1/$/GetProperties?api-version=3.0&continue=b&IncludeValues=true".
Proof. reflexivity. Qed.

Example getURL_without_token :
  getURL (Fixture.client Fixture.scripted) "Applications/" [withContinue ""] =
  "http://localhost:19080/Applications/?api-version=3.0".
Proof. reflexivity. Qed.

Example errorString_of_status :
  errorString (ErrStatus 500 "http://localhost:19080/Applications/?api-version=3.0") =
  "Service Fabric responded with error code 500 to request http://localhost:19080/Applications/?api-version=3.0 with body".
Proof. reflexivity. Qed.

Example rangeProperties_skips_Int64 :
  rangeProperties
    [Fixture.property "a" "String" "x"; Fixture.property "b" "Int64" "5"] ∅ =
  {["a" := "x"]}.
Proof. vm_compute. reflexivity. Qed.

Example GetServices_one_page_then_refused :
  fst (@GetServices _ Fixture.servicesDecoder 4
         (Fixture.client Fixture.scripted) "app1"
         (Fixture.world [Fixture.okReply "services-1"])) =
  Returns (None,
           Some (ErrConnect "connection refused"
                   "http://localhost:19080/Applications/app1/$/GetServices?api-version=3.0&continue=svc1")).
Proof. reflexivity. Qed.

(** ** The monad and the transport adapter *)

Lemma forever_S {T S R} (fuel : nat) (body : S -> M T (LoopStep S R)) s w :
  forever (Datatypes.S fuel) body s w =
  match body s w with
  | (Returns (Next s'), w') => forever fuel body s' w'
  | (Returns (Return r), w') => (Returns r, w')
  | (OutOfFuel, w') => (OutOfFuel, w')
  end.
Proof.
  simpl. unfold bind. destruct (body s w) as [[[s'|r]|] w']; reflexivity.
Qed.

Lemma getHTTP_run {T} (c : ServiceFabricClient T) h basePath paramsFuncs w r t' :
  httpClient c = Some h ->
  Run h GET (getURL c basePath paramsFuncs) (net w) = (r, t') ->
  getHTTP c basePath paramsFuncs w =
  (Returns (getHTTP_result r (getURL c basePath paramsFuncs)),
   logged w t' GET (getURL c basePath paramsFuncs)).
Proof.
  intros Hc Hrun. unfold getHTTP, getHTTP_result, bind, doRequest.
  rewrite Hc, Hrun.
  destruct (run_err r); [reflexivity|].
  destruct (negb _); [reflexivity|].
  destruct (Nat.eqb _ _); reflexivity.
Qed.

Lemma postHTTP_run {T} (c : ServiceFabricClient T) h basePath paramsFuncs w r t' :
  httpClient c = Some h ->
  Run h POST (getURL c basePath paramsFuncs) (net w) = (r, t') ->
  postHTTP c basePath paramsFuncs w =
  (Returns (getHTTP_result r (getURL c basePath paramsFuncs)),
   logged w t' POST (getURL c basePath paramsFuncs)).
Proof.
  intros Hc Hrun. unfold postHTTP, getHTTP_result, bind, doRequest.
  rewrite Hc, Hrun.
  destruct (run_err r); [reflexivity|].
  destruct (negb _); [reflexivity|].
  destruct (Nat.eqb _ _); reflexivity.
Qed.

Lemma getHTTPRaw_run {T} (c : ServiceFabricClient T) h basePath w r t' :
  httpClient c = Some h ->
  Run h GET (getURL c basePath []) (net w) = (r, t') ->
  getHTTPRaw c basePath w =
  (Returns match run_err r with
           | Some err => ((-1)%Z, Some (ErrConnect err (getURL c basePath [])))
           | None => (run_status r, None)
           end,
   logged w t' GET (getURL c basePath [])).
Proof.
  intros Hc Hrun. unfold getHTTPRaw, bind, doRequest.
  rewrite Hc, Hrun. destruct (run_err r); reflexivity.
Qed.

Lemma append_assoc (a b c : string) : (a +:+ b) +:+ c = a +:+ b +:+ c.
Proof.
  induction a as [|ch a IH]; [reflexivity|].
  change (String ch ((a +:+ b) +:+ c) = String ch (a +:+ b +:+ c)).
  now rewrite IH.
Qed.

Lemma append_empty_r (a : string) : a +:+ "" = a.
Proof.
  induction a as [|ch a IH]; [reflexivity|].
  change (String ch (a +:+ "") = String ch a). now rewrite IH.
Qed.

Lemma length_zero_empty (s : string) : Nat.eqb (String.length s) 0 = true <-> s = "".
Proof.
  destruct s; simpl; split; intros E; try reflexivity; discriminate.
Qed.

Lemma status_not_ok (status : Z) :
  status <> StatusOK -> negb (status =? StatusOK)%Z = true.
Proof.
  intros Hne. destruct (Z.eqb_spec status StatusOK); [contradiction|reflexivity].
Qed.

(** ** Construction *)

(** C8.  [NewServiceFabricClient] with an empty endpoint returns no client
    and the configuration error; with a non-empty endpoint and an empty
    version it returns a client whose version is "3.0"; with both
    non-empty it returns a client holding the given version. *)
Theorem NewServiceFabricClient_construction {T} (h : option (HTTPClient T)) :
  (forall version,
     NewServiceFabricClient h "" version = (None, Some ErrEndpointMissing)) /\
  (forall endpoint,
     endpoint <> "" ->
     NewServiceFabricClient h endpoint "" =
     (Some {| endpoint := endpoint; apiVersion := "3.0"; httpClient := h |},
      None)) /\
  (forall endpoint version,
     endpoint <> "" -> version <> "" ->
     NewServiceFabricClient h endpoint version =
     (Some {| endpoint := endpoint; apiVersion := version; httpClient := h |},
      None)).
Proof.
  unfold NewServiceFabricClient. repeat split.
  - intros endpoint Hendpoint.
    apply String.eqb_neq in Hendpoint. rewrite Hendpoint. reflexivity.
  - intros endpoint version Hendpoint Hversion.
    apply String.eqb_neq in Hendpoint, Hversion.
    rewrite Hendpoint, Hversion. reflexivity.
Qed.

Lemma NewServiceFabricClient_construction_witness :
  NewServiceFabricClient (Some Fixture.scripted) "http://localhost:19080" "" =
  (Some (Fixture.client Fixture.scripted), None) /\
  NewServiceFabricClient (Some Fixture.scripted) "http://localhost:19080" "6.4" =
  (Some {| endpoint := "http://localhost:19080"; apiVersion := "6.4";
           httpClient := Some Fixture.scripted |}, None).
Proof.
  destruct (NewServiceFabricClient_construction (Some Fixture.scripted))
    as (_ & Hdefault & Hgiven).
  split; [apply Hdefault | apply Hgiven]; discriminate.
Defined.

(** ** Probes: name existence and cluster health *)

Section Probes.
Context {T : Type} `{JSONDecoder PropertiesListPage}.
Implicit Type c : ServiceFabricClient T.

(** C2.  When the existence probe [GET Names/{name}] is answered without a
    transport error and with a status other than 200, [GetProperties]
    returns [(false, nil, nil)], and the probe is the only request it
    issued: the loop over [$/GetProperties] is never entered, whatever the
    fuel. *)
Theorem GetProperties_absent_name c h name w r t' fuel :
  httpClient c = Some h ->
  Run h GET (getURL c ("Names/" +:+ name) []) (net w) = (r, t') ->
  run_err r = None ->
  run_status r <> StatusOK ->
  GetProperties fuel c name w =
  (Returns (false, None, None),
   logged w t' GET (getURL c ("Names/" +:+ name) [])).
Proof.
  intros Hc Hrun Herr Hstatus.
  unfold GetProperties, nameExists, bind.
  rewrite (getHTTPRaw_run c h _ w r t' Hc Hrun), Herr.
  apply status_not_ok in Hstatus. apply negb_true_iff in Hstatus.
  rewrite Hstatus. reflexivity.
Qed.

(** The URL of the health probe: the literal path with its own
    [api-version=6.0&], then what [getURL] always appends. *)
Lemma clusterHealth_URL c :
  getURL c "/$/GetClusterHealth?api-version=6.0&" [] =
  endpoint c +:+ "//$/GetClusterHealth?api-version=6.0&?api-version="
             +:+ apiVersion c.
Proof. reflexivity. Qed.

Lemma containsChar_app sep (a b : string) :
  containsChar sep (a +:+ b) = containsChar sep a || containsChar sep b.
Proof.
  induction a as [|ch a IH]; [reflexivity|].
  change (Ascii.eqb ch sep || containsChar sep (a +:+ b) =
          Ascii.eqb ch sep || containsChar sep a || containsChar sep b).
  rewrite IH. apply orb_assoc.
Qed.

Lemma splitAt_first sep (a b : string) :
  containsChar sep a = false ->
  splitAt sep (a +:+ String sep b) = (a, Some b).
Proof.
  induction a as [|ch a IH]; intros Hfree.
  - change (splitAt sep (String sep b) = ("", Some b)).
    simpl. now rewrite Ascii.eqb_refl.
  - simpl in Hfree. apply orb_false_iff in Hfree as [Hch Hfree].
    change (splitAt sep (String ch (a +:+ String sep b)) = (String ch a, Some b)).
    simpl. now rewrite Hch, (IH Hfree).
Qed.

Lemma splitOn_first sep (a b : string) :
  containsChar sep a = false ->
  splitOn sep (a +:+ String sep b) = a :: splitOn sep b.
Proof.
  induction a as [|ch a IH]; intros Hfree.
  - change (splitOn sep (String sep b) = "" :: splitOn sep b).
    simpl. now rewrite Ascii.eqb_refl.
  - simpl in Hfree. apply orb_false_iff in Hfree as [Hch Hfree].
    change (splitOn sep (String ch (a +:+ String sep b))
            = String ch a :: splitOn sep b).
    simpl. now rewrite Hch, (IH Hfree).
Qed.

Lemma splitOn_whole sep (s : string) :
  containsChar sep s = false -> splitOn sep s = [s].
Proof.
  induction s as [|ch s IH]; intros Hfree; [reflexivity|].
  simpl in Hfree. apply orb_false_iff in Hfree as [Hch Hfree].
  simpl. now rewrite Hch, (IH Hfree).
Qed.

Example queryParams_of_a_properties_URL :
  queryParams
    "http://localhost:19080/Names/app1/$/GetProperties?api-version=3.0&continue=b&&IncludeValues=true" =
  [("api-version", "3.0"); ("continue", "b"); ("IncludeValues", "true")].
Proof. reflexivity. Qed.

(** The query of the health probe's URL, read as parameters. *)
Lemma clusterHealth_queryParams c :
  containsChar "?" (endpoint c) = false ->
  queryParams
    (endpoint c +:+ "//$/GetClusterHealth?api-version=6.0&?api-version="
                +:+ apiVersion c) =
  ("api-version", "6.0")
    :: map (fun parameter =>
              let '(name, value) := splitAt "=" parameter in
              (name, getString value))
         (List.filter (fun parameter => negb (String.eqb parameter ""))
            (splitOn "&" ("?api-version=" +:+ apiVersion c))).
Proof.
  intros Hendpoint. unfold queryParams.
  change (endpoint c +:+ "//$/GetClusterHealth?api-version=6.0&?api-version="
                     +:+ apiVersion c)
    with (endpoint c +:+ "//$/GetClusterHealth"
            +:+ String "?" ("api-version=6.0"
                  +:+ String "&" ("?api-version=" +:+ apiVersion c))).
  rewrite <- append_assoc.
  rewrite splitAt_first
    by (rewrite containsChar_app, Hendpoint; reflexivity).
  cbv [snd]. rewrite splitOn_first by reflexivity.
  reflexivity.
Qed.

(** C5.  [GetClusterHealth] asks for one URL,
    [{endpoint}//$/GetClusterHealth?api-version=6.0&?api-version={configured}],
    and returns [true] exactly when the probe came back with status code
    200, that is without transport error and with status 200, whatever
    the body; without transport error it returns no error.  For an
    endpoint that has no [?] of its own, the [api-version] parameter of
    that URL is the hard-coded 6.0, whatever version the client is
    configured with; and when the configured version has no [&], the
    URL's parameters are [api-version=6.0] and a parameter named
    [?api-version] that holds the configured version, so 6.0 is the only
    [api-version] there is. *)
Theorem GetClusterHealth_status_and_URL c h w r t' :
  let url := endpoint c +:+ "//$/GetClusterHealth?api-version=6.0&?api-version="
                        +:+ apiVersion c in
  httpClient c = Some h ->
  Run h GET url (net w) = (r, t') ->
  exists healthy err,
    GetClusterHealth c w = (Returns (healthy, err), logged w t' GET url) /\
    (healthy = true <-> run_err r = None /\ run_status r = StatusOK) /\
    (run_err r = None -> err = None) /\
    (containsChar "?" (endpoint c) = false ->
     queryParam "api-version" url = Some "6.0" /\
     (containsChar "&" (apiVersion c) = false ->
      queryParams url =
        [("api-version", "6.0"); ("?api-version", apiVersion c)] /\
      valuesOf "api-version" (queryParams url) = ["6.0"])).
Proof.
  intros url Hc Hrun.
  assert (Hhealth :
    GetClusterHealth c w =
    (Returns match run_err r with
             | Some _ => (false, Some ErrClusterHealth)
             | None => ((run_status r =? StatusOK)%Z, None)
             end, logged w t' GET url)).
  { change url with (getURL c "/$/GetClusterHealth?api-version=6.0&" []) in *.
    unfold GetClusterHealth, bind.
    rewrite (getHTTPRaw_run c h _ w r t' Hc Hrun).
    destruct (run_err r); reflexivity. }
  assert (Hquery :
    containsChar "?" (endpoint c) = false ->
    queryParam "api-version" url = Some "6.0" /\
    (containsChar "&" (apiVersion c) = false ->
     queryParams url =
       [("api-version", "6.0"); ("?api-version", apiVersion c)] /\
     valuesOf "api-version" (queryParams url) = ["6.0"])).
  { intros Hendpoint. unfold queryParam, url.
    rewrite (clusterHealth_queryParams c Hendpoint).
    split; [reflexivity|].
    intros Hversion.
    rewrite splitOn_whole
      by (rewrite containsChar_app, Hversion; reflexivity).
    change ("?api-version=" +:+ apiVersion c)
      with ("?api-version" +:+ String "=" (apiVersion c)).
    assert (Hkept :
      List.filter (fun parameter => negb (String.eqb parameter ""))
        ["?api-version" +:+ String "=" (apiVersion c)]
      = ["?api-version" +:+ String "=" (apiVersion c)]) by reflexivity.
    rewrite Hkept. cbn [map].
    rewrite splitAt_first by reflexivity.
    split; reflexivity. }
  destruct (run_err r) as [cause|] eqn:Herr.
  - exists false, (Some ErrClusterHealth).
    split; [exact Hhealth|]. split; [|split; [discriminate | exact Hquery]].
    split; [discriminate | intros [E _]; discriminate].
  - exists (run_status r =? StatusOK)%Z, None.
    split; [exact Hhealth|]. split; [|split; [reflexivity | exact Hquery]].
    rewrite Z.eqb_eq. tauto.
Qed.

End Probes.

Lemma GetProperties_absent_name_witness :
  @GetProperties _ Fixture.propertiesDecoder 5
    (Fixture.client Fixture.scripted) "fabric:/gone"
    (Fixture.world [Fixture.statusReply 404 "";
                    Fixture.okReply "properties-2"]) =
  (Returns (false, None, None),
   {| net := [Fixture.okReply "properties-2"];
      requests := [(GET, "http://localhost:19080/Names/fabric:/gone?api-version=3.0")];
      decodes := [] |}).
Proof.
  apply (@GetProperties_absent_name _ Fixture.propertiesDecoder
           (Fixture.client Fixture.scripted) Fixture.scripted "fabric:/gone"
           (Fixture.world [Fixture.statusReply 404 "";
                           Fixture.okReply "properties-2"])
           (Fixture.statusReply 404 "") [Fixture.okReply "properties-2"] 5);
    [reflexivity | reflexivity | reflexivity | discriminate].
Defined.

Lemma GetClusterHealth_status_and_URL_witness :
  exists healthy err,
    GetClusterHealth (Fixture.client Fixture.scripted)
      (Fixture.world [Fixture.statusReply 503 "unavailable"]) =
    (Returns (healthy, err),
     {| net := [];
        requests := [(GET, "http://localhost:19080//$/GetClusterHealth?api-version=6.0&?api-version=3.0")];
        decodes := [] |}) /\
    (healthy = true <-> None = @None string /\ 503%Z = StatusOK) /\
    queryParam "api-version"
      "http://localhost:19080//$/GetClusterHealth?api-version=6.0&?api-version=3.0"
      = Some "6.0" /\
    queryParams
      "http://localhost:19080//$/GetClusterHealth?api-version=6.0&?api-version=3.0"
      = [("api-version", "6.0"); ("?api-version", "3.0")].
Proof.
  destruct (GetClusterHealth_status_and_URL
              (Fixture.client Fixture.scripted) Fixture.scripted
              (Fixture.world [Fixture.statusReply 503 "unavailable"])
              (Fixture.statusReply 503 "unavailable") [] eq_refl eq_refl)
    as (healthy & err & Hrun & Hiff & _ & Hquery).
  destruct (Hquery eq_refl) as [Hfirst Honly].
  destruct (Honly eq_refl) as [Hparams _].
  exists healthy, err.
  split; [exact Hrun | split; [exact Hiff | split; [exact Hfirst | exact Hparams]]].
Defined.

(** ** Deletion *)

Section Deletes.
Context {T : Type}.
Variable bytesEqualStatus : string -> Z -> bool.
Implicit Type c : ServiceFabricClient T.

(** C7 on the code.  [DeleteService] and [DeleteApplication] POST to the
    delete path with the configured version, and [postHTTP] turns a reply
    whose status is not 200, or whose body is empty, into an error: both
    functions then return [false] together with an error, whatever
    [res == http.StatusOK] may mean. *)
Theorem Delete_non200_or_empty_is_error c h id w r t' :
  let serviceURL :=
    getURL c ("/Services/" +:+ id +:+ "/$/Delete")
      [withParam "api-version" (apiVersion c)] in
  let applicationURL :=
    getURL c ("/Applications/" +:+ id +:+ "/$/Delete")
      [withParam "api-version" (apiVersion c)] in
  httpClient c = Some h ->
  run_err r = None ->
  run_status r <> StatusOK \/ run_text r = "" ->
  (Run h POST serviceURL (net w) = (r, t') ->
   DeleteService bytesEqualStatus c id w =
   (Returns (false, Some ErrClusterHealth), logged w t' POST serviceURL)) /\
  (Run h POST applicationURL (net w) = (r, t') ->
   DeleteApplication bytesEqualStatus c id w =
   (Returns (false, Some ErrClusterHealth), logged w t' POST applicationURL)).
Proof.
  intros serviceURL applicationURL Hc Herr Hreply.
  assert (Hres : forall url, exists e, getHTTP_result r url = ("", Some e)).
  { intros url. unfold getHTTP_result. rewrite Herr.
    destruct Hreply as [Hstatus | Hempty].
    - rewrite (status_not_ok _ Hstatus). eauto.
    - destruct (negb _); [eauto|].
      apply length_zero_empty in Hempty. rewrite Hempty. eauto. }
  split; intros Hrun.
  - unfold DeleteService, bind.
    rewrite (postHTTP_run c h _ _ w r t' Hc Hrun).
    destruct (Hres serviceURL) as [e He]. fold serviceURL. rewrite He.
    reflexivity.
  - unfold DeleteApplication, bind.
    rewrite (postHTTP_run c h _ _ w r t' Hc Hrun).
    destruct (Hres applicationURL) as [e He]. fold applicationURL. rewrite He.
    reflexivity.
Qed.

End Deletes.

Lemma Delete_non200_or_empty_is_error_witness :
  DeleteService (fun _ _ => true) (Fixture.client Fixture.scripted) "app1/svc1"
    (Fixture.world [Fixture.okReply ""]) =
  (Returns (false, Some ErrClusterHealth),
   {| net := [];
      requests := [(POST, "http://localhost:19080//Services/app1/svc1/$/Delete?api-version=3.0&api-version=3.0")];
      decodes := [] |}).
Proof.
  apply (Delete_non200_or_empty_is_error (fun _ _ => true)
           (Fixture.client Fixture.scripted) Fixture.scripted "app1/svc1"
           (Fixture.world [Fixture.okReply ""]) (Fixture.okReply "") []);
    [reflexivity | reflexivity | right; reflexivity | reflexivity].
Defined.

(** ** One trip round a loop *)

Section FetchPage.
Context {T P : Type} `{JSONDecoder P}.
Implicit Type c : ServiceFabricClient T.

Lemma fetchPage_returns c basePath paramsFuncs w :
  exists (f : PageFetch P) w',
    fetchPage c basePath paramsFuncs w = (Returns f, w').
Proof.
  unfold fetchPage, getHTTP, bind, doRequest, jsonUnmarshal, ret.
  destruct (httpClient c) as [h|]; [|eauto].
  destruct (Run h GET _ (net w)) as [r t'].
  destruct (run_err r); [eauto|].
  destruct (negb _); [eauto|].
  destruct (Nat.eqb _ _); [eauto|].
  destruct (json_decode (run_text r)); eauto.
Qed.

Lemma fetchPage_run c h basePath paramsFuncs w r t' :
  httpClient c = Some h ->
  Run h GET (getURL c basePath paramsFuncs) (net w) = (r, t') ->
  fetchPage c basePath paramsFuncs w =
  match getHTTP_result r (getURL c basePath paramsFuncs) with
  | (_, Some err) =>
      (Returns (FetchFailed err),
       logged w t' GET (getURL c basePath paramsFuncs))
  | (res, None) =>
      (Returns match json_decode res with
               | inl detail => DecodeFailed detail
               | inr page => Fetched page
               end,
       {| net := t';
          requests := requests w ++ [(GET, getURL c basePath paramsFuncs)];
          decodes := decodes w ++ [JSONUnmarshal res] |})
  end.
Proof.
  intros Hc Hrun. unfold fetchPage, bind.
  rewrite (getHTTP_run c h _ _ w r t' Hc Hrun).
  destruct (getHTTP_result r _) as [res [err|]]; [reflexivity|].
  unfold jsonUnmarshal, logged, ret. simpl.
  destruct (json_decode res); reflexivity.
Qed.

(** A trip adds at most one request to the log, and exactly one when it
    got a reply. *)
Lemma fetchPage_requests c basePath paramsFuncs w o w' :
  fetchPage c basePath paramsFuncs w = (o, w') ->
  requests w' = requests w ++ [(GET, getURL c basePath paramsFuncs)] \/
  httpClient c = None /\ o = Returns (FetchFailed ErrInvalidClient) /\ w' = w.
Proof.
  destruct (httpClient c) as [h|] eqn:Hc.
  - destruct (Run h GET (getURL c basePath paramsFuncs) (net w)) as [r t'] eqn:Hrun.
    rewrite (fetchPage_run c h _ _ w r t' Hc Hrun).
    destruct (getHTTP_result r _) as [res [err|]]; intros E; inversion E; subst;
      left; reflexivity.
  - unfold fetchPage, getHTTP, bind. rewrite Hc. simpl.
    intros E; inversion E; subst. right. auto.
Qed.

Lemma fetchPage_fetched_requests c basePath paramsFuncs w (page : P) w' :
  fetchPage c basePath paramsFuncs w = (Returns (Fetched page), w') ->
  requests w' = requests w ++ [(GET, getURL c basePath paramsFuncs)].
Proof.
  intros E. destruct (fetchPage_requests _ _ _ _ _ _ E) as [Hlog | (_ & Ho & _)];
    [exact Hlog | discriminate].
Qed.

(** The reply that [getHTTP] accepts. *)
Lemma getHTTP_result_ok r url :
  run_err r = None -> run_status r = StatusOK -> run_text r <> "" ->
  getHTTP_result r url = (run_text r, None).
Proof.
  intros Herr Hstatus Htext. unfold getHTTP_result.
  rewrite Herr, Hstatus. simpl.
  destruct (Nat.eqb _ _) eqn:E; [|reflexivity].
  apply length_zero_empty in E. contradiction.
Qed.

Lemma getHTTP_result_status r url :
  run_err r = None -> run_status r <> StatusOK ->
  getHTTP_result r url = ("", Some (ErrStatus (run_status r) url)).
Proof.
  intros Herr Hstatus. unfold getHTTP_result.
  rewrite Herr, (status_not_ok _ Hstatus). reflexivity.
Qed.

Lemma getHTTP_result_empty r url :
  run_err r = None -> run_status r = StatusOK -> run_text r = "" ->
  getHTTP_result r url = ("", Some ErrEmptyBody).
Proof.
  intros Herr Hstatus Htext. unfold getHTTP_result.
  rewrite Herr, Hstatus, Htext. reflexivity.
Qed.

End FetchPage.

(** ** The pagination loop

    The three loops differ in the path, the page type, what they add to
    their aggregate and how they wrap their results.  What is proved here
    holds for any loop body that behaves as [body_step] says; the three
    bodies of the file do (lemmas [GetApplications_body_step],
    [GetServices_body_step] and [GetProperties_body_step] below). *)

Section PagedLoop.
Context {T P A R : Type} `{JSONDecoder P}.
Variable c : ServiceFabricClient T.
Variable basePath : string.
Variable paramsFuncs : string -> list queryParamsFunc.
Variable tokenOf : P -> string.
Variable add : A -> P -> A.
Variable failed : Error -> R.
Variable finished : A -> R.
Variable body : string * A -> M T (LoopStep (string * A) R).

Hypothesis body_step : forall continueToken aggregate w,
  body (continueToken, aggregate) w =
  match fetchPage c basePath (paramsFuncs continueToken) w with
  | (Returns (FetchFailed err), w') => (Returns (Return (failed err)), w')
  | (Returns (DecodeFailed detail), w') =>
      (Returns (Return (failed (ErrJSON detail))), w')
  | (Returns (Fetched page), w') =>
      if String.eqb (tokenOf page) ""
      then (Returns (Return (finished (add aggregate page))), w')
      else (Returns (Next (tokenOf page, add aggregate page)), w')
  | (OutOfFuel, w') => (OutOfFuel, w')
  end.

Lemma loop_stops k : forall continueToken aggregate w f,
  pageAt c basePath paramsFuncs tokenOf k continueToken w = Some f ->
  stopsLoop tokenOf f ->
  exists r w', forall fuel, k < fuel ->
    forever fuel body (continueToken, aggregate) w = (Returns r, w').
Proof.
  induction k as [|k IH]; intros tok agg w f Hat Hstop; simpl in Hat;
    destruct (fetchPage c basePath (paramsFuncs tok) w) as [[f0|] w1] eqn:Hfetch;
    try discriminate.
  - inversion Hat; subst f0; clear Hat.
    assert (Hbody : exists r, body (tok, agg) w = (Returns (Return r), w1)).
    { rewrite body_step, Hfetch.
      destruct f as [err|detail|page]; [eauto | eauto |].
      simpl in Hstop. rewrite Hstop. simpl. eauto. }
    destruct Hbody as [r Hbody]. exists r, w1.
    intros [|fuel] Hfuel; [lia|]. rewrite forever_S, Hbody. reflexivity.
  - destruct f0 as [err|detail|page]; try discriminate.
    destruct (String.eqb (tokenOf page) "") eqn:Htoken; [discriminate|].
    destruct (IH _ (add agg page) _ _ Hat Hstop) as (r & w' & Hrun).
    exists r, w'. intros [|fuel] Hfuel; [lia|].
    rewrite forever_S, body_step, Hfetch, Htoken. apply Hrun. lia.
Qed.

Lemma loop_terminated fuel : forall continueToken aggregate w,
  terminated (fst (forever fuel body (continueToken, aggregate) w)) ->
  exists k f, k < fuel /\
    pageAt c basePath paramsFuncs tokenOf k continueToken w = Some f /\
    stopsLoop tokenOf f.
Proof.
  induction fuel as [|fuel IH]; intros tok agg w Hterm; [contradiction|].
  rewrite forever_S, body_step in Hterm.
  destruct (fetchPage c basePath (paramsFuncs tok) w) as [[f0|] w1] eqn:Hfetch;
    [|contradiction].
  destruct f0 as [err|detail|page].
  - exists 0, (FetchFailed err). simpl. rewrite Hfetch.
    split; [lia | split; [reflexivity | exact I]].
  - exists 0, (DecodeFailed detail). simpl. rewrite Hfetch.
    split; [lia | split; [reflexivity | exact I]].
  - destruct (String.eqb (tokenOf page) "") eqn:Htoken.
    + exists 0, (Fetched page). simpl. rewrite Hfetch.
      split; [lia | split; [reflexivity | now apply String.eqb_eq]].
    + destruct (IH _ _ _ Hterm) as (k & f & Hk & Hat & Hstop).
      exists (Datatypes.S k), f. simpl. rewrite Hfetch, Htoken.
      split; [lia | split; [exact Hat | exact Hstop]].
Qed.

(** The loop comes to an end exactly when some trip stops it. *)
Lemma loop_terminates_iff continueToken aggregate w :
  (exists fuel,
     terminated (fst (forever fuel body (continueToken, aggregate) w))) <->
  (exists k f,
     pageAt c basePath paramsFuncs tokenOf k continueToken w = Some f /\
     stopsLoop tokenOf f).
Proof.
  split.
  - intros [fuel Hterm].
    destruct (loop_terminated _ _ _ _ Hterm) as (k & f & _ & Hat & Hstop).
    eauto.
  - intros (k & f & Hat & Hstop).
    destruct (loop_stops k _ aggregate _ _ Hat Hstop) as (r & w' & Hrun).
    exists (Datatypes.S k). rewrite Hrun; [exact I | lia].
Qed.

(** When every trip fetches a page that carries a token, the loop is
    still running after any number of trips, one request per trip. *)
Lemma loop_diverges fuel : forall continueToken aggregate w,
  (forall k, exists page,
     pageAt c basePath paramsFuncs tokenOf k continueToken w
       = Some (Fetched page) /\ tokenOf page <> "") ->
  exists w',
    forever fuel body (continueToken, aggregate) w = (OutOfFuel, w') /\
    length (requests w') = length (requests w) + fuel.
Proof.
  induction fuel as [|fuel IH]; intros tok agg w Hall.
  - exists w. split; [reflexivity | simpl; lia].
  - destruct (Hall 0) as (page & Hat & Htoken). simpl in Hat.
    destruct (fetchPage c basePath (paramsFuncs tok) w) as [[f0|] w1] eqn:Hfetch;
      [|discriminate].
    inversion Hat; subst f0; clear Hat.
    apply String.eqb_neq in Htoken.
    destruct (IH (tokenOf page) (add agg page) w1) as (w' & Hrun & Hlen).
    { intros k. destruct (Hall (Datatypes.S k)) as (page' & Hat' & Htoken').
      simpl in Hat'. rewrite Hfetch, Htoken in Hat'. eauto. }
    exists w'. rewrite forever_S, body_step, Hfetch, Htoken.
    split; [exact Hrun|].
    rewrite Hlen, (fetchPage_fetched_requests _ _ _ _ _ _ Hfetch).
    rewrite length_app. simpl. lia.
Qed.

(** When the remote side serves [pages], the loop makes one trip per
    page, asks for the URLs in order, and finishes with the pages added to
    the aggregate in the order they came. *)
Lemma loop_serves h (pages : list P) : forall continueToken aggregate w,
  httpClient c = Some h ->
  servesPages h (fun token => getURL c basePath (paramsFuncs token)) tokenOf
    continueToken (net w) pages ->
  exists w',
    (forall fuel, length pages <= fuel ->
       forever fuel body (continueToken, aggregate) w =
       (Returns (finished (fold_left add pages aggregate)), w')) /\
    (forall fuel, fuel < length pages ->
       fst (forever fuel body (continueToken, aggregate) w) = OutOfFuel) /\
    requests w' =
      requests w ++
      urlsAsked (fun token => getURL c basePath (paramsFuncs token)) tokenOf
        continueToken pages.
Proof.
  induction pages as [|page rest IH]; intros tok agg w Hc Hserves;
    [contradiction|].
  simpl in Hserves.
  destruct (Run h GET (getURL c basePath (paramsFuncs tok)) (net w))
    as [r t'] eqn:Hrun.
  destruct Hserves as (Herr & Hstatus & Htext & Hdecode & Hrest).
  pose proof (fetchPage_run c h _ _ w r t' Hc Hrun) as Hfetch.
  rewrite (getHTTP_result_ok r _ Herr Hstatus Htext), Hdecode in Hfetch.
  destruct rest as [|page' rest'].
  - apply String.eqb_eq in Hrest.
    eexists. split; [|split].
    + intros [|fuel] Hfuel; [simpl in Hfuel; lia|].
      rewrite forever_S, body_step, Hfetch, Hrest. reflexivity.
    + intros fuel Hfuel. simpl in Hfuel.
      assert (fuel = 0) as -> by lia. reflexivity.
    + reflexivity.
  - destruct Hrest as [Htoken Hserves'].
    apply String.eqb_neq in Htoken.
    destruct (IH (tokenOf page) (add agg page)
                {| net := t';
                   requests :=
                     requests w ++ [(GET, getURL c basePath (paramsFuncs tok))];
                   decodes := decodes w ++ [JSONUnmarshal (run_text r)] |}
                Hc Hserves') as (w' & Hdone & Hshort & Hlog).
    exists w'. split; [|split].
    + intros [|fuel] Hfuel; [simpl in Hfuel; lia|].
      rewrite forever_S, body_step, Hfetch, Htoken.
      apply Hdone. simpl in *. lia.
    + intros [|fuel] Hfuel; [reflexivity|].
      rewrite forever_S, body_step, Hfetch, Htoken.
      apply Hshort. simpl in *. lia.
    + rewrite Hlog. simpl. rewrite <- app_assoc. reflexivity.
Qed.

End PagedLoop.

(** The last of the pages served, and only the last, carries no token. *)
Lemma servesPages_last {T P} `{JSONDecoder P} (h : HTTPClient T) url
    (tokenOf : P -> string) (pages : list P) : forall continueToken t,
  servesPages h url tokenOf continueToken t pages ->
  exists front final,
    pages = front ++ [final] /\ tokenOf final = "" /\
    Forall (fun page => tokenOf page <> "") front.
Proof.
  induction pages as [|page rest IH]; intros tok t Hserves; [contradiction|].
  simpl in Hserves. destruct (Run h GET (url tok) t) as [r t'].
  destruct Hserves as (_ & _ & _ & _ & Hrest).
  destruct rest as [|page' rest'].
  - exists [], page. repeat split; [exact Hrest | constructor].
  - destruct Hrest as [Htoken Hserves'].
    destruct (IH _ _ Hserves') as (front & final & -> & Hfinal & Hfront).
    exists (page :: front), final. repeat split; [exact Hfinal|].
    constructor; assumption.
Qed.

Lemma length_urlsAsked {P} url (tokenOf : P -> string) (pages : list P) :
  forall continueToken,
  length (urlsAsked url tokenOf continueToken pages) = length pages.
Proof.
  induction pages as [|page rest IH]; intros token; simpl;
    [reflexivity | now rewrite IH].
Qed.

(** ** The three loops are pagination loops *)

Section Loops.
Context {T : Type}.
Context `{JSONDecoder ApplicationItemsPage} `{JSONDecoder ServiceItemsPage}.
Context `{JSONDecoder PropertiesListPage}.
Implicit Type c : ServiceFabricClient T.

Lemma GetApplications_body_step c continueToken aggregate w :
  GetApplications_body c (continueToken, aggregate) w =
  match fetchPage c "Applications/" [withContinue continueToken] w with
  | (Returns (FetchFailed err), w') => (Returns (Return (None, Some err)), w')
  | (Returns (DecodeFailed detail), w') =>
      (Returns (Return (None, Some (ErrJSON detail))), w')
  | (Returns (Fetched page), w') =>
      let aggregate' := appendApplications aggregate page in
      if String.eqb (applicationsToken page) ""
      then (Returns (Return (Some aggregate', None)), w')
      else (Returns (Next (applicationsToken page, aggregate')), w')
  | (OutOfFuel, w') => (OutOfFuel, w')
  end.
Proof.
  unfold GetApplications_body, fetchPage, bind, applicationsToken.
  destruct (getHTTP c _ _ w) as [[[res [err|]]|] w1]; try reflexivity.
  unfold jsonUnmarshal, ret.
  destruct (json_decode res) as [detail|page]; try reflexivity.
  destruct (String.eqb _ _); reflexivity.
Qed.

Lemma GetServices_body_step c appName continueToken aggregate w :
  GetServices_body c appName (continueToken, aggregate) w =
  match fetchPage c ("Applications/" +:+ appName +:+ "/$/GetServices")
          [withContinue continueToken] w with
  | (Returns (FetchFailed err), w') => (Returns (Return (None, Some err)), w')
  | (Returns (DecodeFailed detail), w') =>
      (Returns (Return (None, Some (ErrJSON detail))), w')
  | (Returns (Fetched page), w') =>
      let aggregate' := appendServices aggregate page in
      if String.eqb (servicesToken page) ""
      then (Returns (Return (Some aggregate', None)), w')
      else (Returns (Next (servicesToken page, aggregate')), w')
  | (OutOfFuel, w') => (OutOfFuel, w')
  end.
Proof.
  unfold GetServices_body, fetchPage, bind, servicesToken.
  destruct (getHTTP c _ _ w) as [[[res [err|]]|] w1]; try reflexivity.
  unfold jsonUnmarshal, ret.
  destruct (json_decode res) as [detail|page]; try reflexivity.
  destruct (String.eqb _ _); reflexivity.
Qed.

Lemma GetProperties_body_step c name continueToken properties w :
  GetProperties_body c name (continueToken, properties) w =
  match fetchPage c ("Names/" +:+ name +:+ "/$/GetProperties")
          [withContinue continueToken; withParam "IncludeValues" "true"] w with
  | (Returns (FetchFailed err), w') =>
      (Returns (Return (false, None, Some err)), w')
  | (Returns (DecodeFailed detail), w') =>
      (Returns (Return (false, None, Some (ErrJSON detail))), w')
  | (Returns (Fetched page), w') =>
      let properties' := rangeProperties (Properties page) properties in
      if String.eqb (PropertiesListPage_ContinuationToken page) ""
      then (Returns (Return (true, Some properties', None)), w')
      else (Returns (Next (PropertiesListPage_ContinuationToken page,
                           properties')), w')
  | (OutOfFuel, w') => (OutOfFuel, w')
  end.
Proof.
  unfold GetProperties_body, fetchPage, bind.
  destruct (getHTTP c _ _ w) as [[[res [err|]]|] w1]; try reflexivity.
  unfold jsonUnmarshal, ret.
  destruct (json_decode res) as [detail|page]; try reflexivity.
  destruct (String.eqb _ _); reflexivity.
Qed.

Lemma fold_append_items (pages : list ApplicationItemsPage) : forall aggregate,
  fold_left appendApplications pages aggregate =
  {| ApplicationItemsPage_ContinuationToken :=
       ApplicationItemsPage_ContinuationToken aggregate;
     ApplicationItemsPage_Items :=
       ApplicationItemsPage_Items aggregate
         ++ concat (map ApplicationItemsPage_Items pages) |}.
Proof.
  induction pages as [|page rest IH]; intros agg; simpl.
  - rewrite app_nil_r. destruct agg; reflexivity.
  - rewrite IH. simpl. rewrite <- app_assoc. reflexivity.
Qed.

End Loops.

(** ** Listing applications *)

Section Applications.
Context {T : Type} `{JSONDecoder ApplicationItemsPage}.
Implicit Type c : ServiceFabricClient T.

(** C1.  When the remote side answers the successive requests of
    [GetApplications] with the pages [pages] (N pages, page i with its M_i
    items, every page but the last carrying a token), then [GetApplications]
    returns, with no error, the items of all pages concatenated in the
    order the pages came, nothing removed: the sum of the M_i items.  It
    issues exactly N requests, one per page and in order (N trips are
    needed: with fewer the loop is still running), and the page fetched
    last is the one whose token is empty or absent. *)
Theorem GetApplications_concatenates_pages c h w pages :
  httpClient c = Some h ->
  servesPages h (applicationsURL c) applicationsToken "" (net w) pages ->
  exists w',
    (forall fuel, length pages <= fuel ->
       GetApplications fuel c w =
       (Returns
          (Some {| ApplicationItemsPage_ContinuationToken := None;
                   ApplicationItemsPage_Items :=
                     concat (map ApplicationItemsPage_Items pages) |},
           None), w')) /\
    (forall fuel, fuel < length pages ->
       fst (GetApplications fuel c w) = OutOfFuel) /\
    requests w' =
      requests w ++ urlsAsked (applicationsURL c) applicationsToken "" pages /\
    length (requests w') = length (requests w) + length pages /\
    length (concat (map ApplicationItemsPage_Items pages)) =
      list_sum (map (fun page => length (ApplicationItemsPage_Items page)) pages) /\
    exists front final,
      pages = front ++ [final] /\ applicationsToken final = "" /\
      Forall (fun page => applicationsToken page <> "") front.
Proof.
  intros Hc Hserves.
  destruct (loop_serves c "Applications/" (fun token => [withContinue token])
              applicationsToken appendApplications
              (fun err => (None, Some err))
              (fun aggregate => (Some aggregate, None))
              (GetApplications_body c) (GetApplications_body_step c)
              h pages ""
              {| ApplicationItemsPage_ContinuationToken := None;
                 ApplicationItemsPage_Items := [] |} w Hc Hserves)
    as (w' & Hdone & Hshort & Hlog).
  exists w'. split; [|split; [|split; [|split; [|split]]]].
  - intros fuel Hfuel. unfold GetApplications.
    rewrite (Hdone fuel Hfuel), fold_append_items. reflexivity.
  - exact Hshort.
  - exact Hlog.
  - rewrite Hlog, length_app, length_urlsAsked. reflexivity.
  - rewrite length_concat, map_map. reflexivity.
  - exact (servesPages_last h _ _ pages _ _ Hserves).
Qed.

End Applications.

Lemma GetApplications_concatenates_pages_witness :
  exists w',
    @GetApplications _ Fixture.appsDecoder 2 (Fixture.client Fixture.scripted)
      (Fixture.world [Fixture.okReply "apps-1"; Fixture.okReply "apps-2"]) =
    (Returns
       (Some {| ApplicationItemsPage_ContinuationToken := None;
                ApplicationItemsPage_Items :=
                  [Fixture.app "app1"; Fixture.app "app2";
                   Fixture.app "app2"; Fixture.app "app3"] |},
        None), w') /\
    requests w' =
      [(GET, "http://localhost:19080/Applications/?api-version=3.0");
       (GET, "http://localhost:19080/Applications/?api-version=3.0&continue=app2")].
Proof.
  destruct (@GetApplications_concatenates_pages _ Fixture.appsDecoder
              (Fixture.client Fixture.scripted) Fixture.scripted
              (Fixture.world [Fixture.okReply "apps-1"; Fixture.okReply "apps-2"])
              [Fixture.appsPage1; Fixture.appsPage2])
    as (w' & Hdone & _ & Hlog & _).
  - reflexivity.
  - simpl. repeat split; discriminate.
  - exists w'. split; [exact (Hdone 2 (le_n 2)) | exact Hlog].
Defined.

(** ** Errors of the transport adapter *)

Section FetchErrors.
Context {T : Type}.
Context `{JSONDecoder ApplicationItemsPage} `{JSONDecoder ServiceItemsPage}.
Context `{JSONDecoder PropertiesListPage}.
Implicit Type c : ServiceFabricClient T.

Lemma errorString_ErrStatus_occurs status url :
  occursIn (itoa status) (errorString (ErrStatus status url)) /\
  occursIn url (errorString (ErrStatus status url)).
Proof.
  split.
  - exists "Service Fabric responded with error code ",
      (" to request " +:+ url +:+ " with body"). reflexivity.
  - exists ("Service Fabric responded with error code " +:+ itoa status
              +:+ " to request "), " with body".
    simpl errorString. rewrite !append_assoc. reflexivity.
Qed.

(** C6.  A reply to [getHTTP] that comes without transport error and with
    a status other than 200 makes [getHTTP] return the upstream-status
    error, whose text contains the status code and the URL asked for; a
    reply with status 200 and an empty body makes it return the
    empty-response error, and no decoder has been called.  In the three
    pagination loops, at any trip, an error returned by [getHTTP] is
    returned as it is by the enclosing function, in the world [getHTTP]
    left: the failed request is the last one and nothing is decoded. *)
Theorem getHTTP_errors_stop_pagination c :
  (forall h basePath paramsFuncs w r t',
     let url := getURL c basePath paramsFuncs in
     httpClient c = Some h ->
     Run h GET url (net w) = (r, t') ->
     run_err r = None ->
     (run_status r <> StatusOK ->
      getHTTP c basePath paramsFuncs w =
        (Returns ("", Some (ErrStatus (run_status r) url)), logged w t' GET url) /\
      occursIn (itoa (run_status r)) (errorString (ErrStatus (run_status r) url)) /\
      occursIn url (errorString (ErrStatus (run_status r) url))) /\
     (run_status r = StatusOK -> run_text r = "" ->
      getHTTP c basePath paramsFuncs w =
        (Returns ("", Some ErrEmptyBody), logged w t' GET url) /\
      decodes (logged w t' GET url) = decodes w)) /\
  (forall fuel continueToken aggregate w res err w',
     getHTTP c "Applications/" [withContinue continueToken] w =
       (Returns (res, Some err), w') ->
     forever (S fuel) (GetApplications_body c) (continueToken, aggregate) w =
       (Returns (None, Some err), w')) /\
  (forall appName fuel continueToken aggregate w res err w',
     getHTTP c ("Applications/" +:+ appName +:+ "/$/GetServices")
       [withContinue continueToken] w = (Returns (res, Some err), w') ->
     forever (S fuel) (GetServices_body c appName) (continueToken, aggregate) w =
       (Returns (None, Some err), w')) /\
  (forall name fuel continueToken properties w res err w',
     getHTTP c ("Names/" +:+ name +:+ "/$/GetProperties")
       [withContinue continueToken; withParam "IncludeValues" "true"] w =
       (Returns (res, Some err), w') ->
     forever (S fuel) (GetProperties_body c name) (continueToken, properties) w =
       (Returns (false, None, Some err), w')).
Proof.
  split; [|split; [|split]].
  - intros h basePath paramsFuncs w r t' url Hc Hrun Herr. split.
    + intros Hstatus.
      rewrite (getHTTP_run c h _ _ w r t' Hc Hrun).
      rewrite (getHTTP_result_status r _ Herr Hstatus).
      split; [reflexivity | apply errorString_ErrStatus_occurs].
    + intros Hstatus Htext.
      rewrite (getHTTP_run c h _ _ w r t' Hc Hrun).
      rewrite (getHTTP_result_empty r _ Herr Hstatus Htext).
      split; reflexivity.
  - intros fuel tok agg w res err w' Hget.
    rewrite forever_S. unfold GetApplications_body, bind.
    rewrite Hget. reflexivity.
  - intros appName fuel tok agg w res err w' Hget.
    rewrite forever_S. unfold GetServices_body, bind.
    rewrite Hget. reflexivity.
  - intros name fuel tok props w res err w' Hget.
    rewrite forever_S. unfold GetProperties_body, bind.
    rewrite Hget. reflexivity.
Qed.

End FetchErrors.

Lemma getHTTP_errors_stop_pagination_witness :
  getHTTP (Fixture.client Fixture.scripted) "Applications/" [withContinue "app2"]
    (Fixture.world [Fixture.statusReply 500 "boom"; Fixture.okReply "apps-2"]) =
  (Returns ("", Some (ErrStatus 500
     "http://localhost:19080/Applications/?api-version=3.0&continue=app2")),
   {| net := [Fixture.okReply "apps-2"];
      requests := [(GET, "http://localhost:19080/Applications/?api-version=3.0&continue=app2")];
      decodes := [] |}) /\
  forever 7 (@GetApplications_body _ Fixture.appsDecoder
               (Fixture.client Fixture.scripted))
    ("app2", Fixture.appsPage1)
    (Fixture.world [Fixture.statusReply 500 "boom"; Fixture.okReply "apps-2"]) =
  (Returns (None, Some (ErrStatus 500
     "http://localhost:19080/Applications/?api-version=3.0&continue=app2")),
   {| net := [Fixture.okReply "apps-2"];
      requests := [(GET, "http://localhost:19080/Applications/?api-version=3.0&continue=app2")];
      decodes := [] |}).
Proof.
  destruct (@getHTTP_errors_stop_pagination _ Fixture.appsDecoder
              Fixture.servicesDecoder Fixture.propertiesDecoder
              (Fixture.client Fixture.scripted))
    as (Hget & Happs & _).
  destruct (Hget Fixture.scripted "Applications/" [withContinue "app2"]
              (Fixture.world [Fixture.statusReply 500 "boom";
                              Fixture.okReply "apps-2"])
              (Fixture.statusReply 500 "boom") [Fixture.okReply "apps-2"]
              eq_refl eq_refl eq_refl) as [Hstatus _].
  destruct Hstatus as (Hresult & _); [discriminate|].
  split; [exact Hresult|].
  apply (Happs 6 "app2" Fixture.appsPage1 _ "" _ _ Hresult).
Defined.

(** ** Termination of the loops *)

Section Termination.
Context {T : Type}.
Context `{JSONDecoder ApplicationItemsPage} `{JSONDecoder ServiceItemsPage}.
Context `{JSONDecoder PropertiesListPage}.
Implicit Type c : ServiceFabricClient T.

(** C9, as the code has it.  Each of the three loops comes to an end if
    and only if some trip stops it, and a trip stops it in one of three
    ways: [getHTTP] returns an error, the body fails to decode, or the
    decoded page carries an empty or absent token.  When every trip
    fetches a page that carries a token, the loop is still running after
    any number of trips and has issued one request per trip. *)
Theorem pagination_terminates_iff c :
  (forall w,
     (exists fuel, terminated (fst (GetApplications fuel c w))) <->
     (exists k f,
        pageAt c "Applications/" (fun token => [withContinue token])
          applicationsToken k "" w = Some f /\
        stopsLoop applicationsToken f)) /\
  (forall appName w,
     (exists fuel, terminated (fst (GetServices fuel c appName w))) <->
     (exists k f,
        pageAt c ("Applications/" +:+ appName +:+ "/$/GetServices")
          (fun token => [withContinue token]) servicesToken k "" w = Some f /\
        stopsLoop servicesToken f)) /\
  (forall name w w1,
     nameExists c name w = (Returns (true, None), w1) ->
     (exists fuel, terminated (fst (GetProperties fuel c name w))) <->
     (exists k f,
        pageAt c ("Names/" +:+ name +:+ "/$/GetProperties")
          (fun token => [withContinue token; withParam "IncludeValues" "true"])
          PropertiesListPage_ContinuationToken k "" w1 = Some f /\
        stopsLoop PropertiesListPage_ContinuationToken f)) /\
  (forall w,
     (forall k, exists page,
        pageAt c "Applications/" (fun token => [withContinue token])
          applicationsToken k "" w = Some (Fetched page) /\
        applicationsToken page <> "") ->
     forall fuel, exists w',
       GetApplications fuel c w = (OutOfFuel, w') /\
       length (requests w') = length (requests w) + fuel) /\
  (forall appName w,
     (forall k, exists page,
        pageAt c ("Applications/" +:+ appName +:+ "/$/GetServices")
          (fun token => [withContinue token]) servicesToken k "" w
          = Some (Fetched page) /\
        servicesToken page <> "") ->
     forall fuel, exists w',
       GetServices fuel c appName w = (OutOfFuel, w') /\
       length (requests w') = length (requests w) + fuel) /\
  (forall name w w1,
     nameExists c name w = (Returns (true, None), w1) ->
     (forall k, exists page,
        pageAt c ("Names/" +:+ name +:+ "/$/GetProperties")
          (fun token => [withContinue token; withParam "IncludeValues" "true"])
          PropertiesListPage_ContinuationToken k "" w1 = Some (Fetched page) /\
        PropertiesListPage_ContinuationToken page <> "") ->
     forall fuel, exists w',
       GetProperties fuel c name w = (OutOfFuel, w') /\
       length (requests w') = length (requests w1) + fuel).
Proof.
  split; [|split; [|split; [|split; [|split]]]].
  - intros w. unfold GetApplications.
    exact (loop_terminates_iff c _ _ _ appendApplications
             (fun err => (None, Some err)) (fun aggregate => (Some aggregate, None))
             _ (GetApplications_body_step c) _ _ w).
  - intros appName w. unfold GetServices.
    exact (loop_terminates_iff c _ _ _ appendServices
             (fun err => (None, Some err)) (fun aggregate => (Some aggregate, None))
             _ (GetServices_body_step c appName) _ _ w).
  - intros name w w1 Hprobe.
    assert (Hrun : forall fuel,
              GetProperties fuel c name w =
              forever fuel (GetProperties_body c name) ("", ∅) w1).
    { intros fuel. unfold GetProperties, bind. rewrite Hprobe. reflexivity. }
    pose proof (loop_terminates_iff c _ _ _
                  (fun properties page =>
                     rangeProperties (Properties page) properties)
                  (fun err => (false, None, Some err))
                  (fun properties => (true, Some properties, None))
                  _ (GetProperties_body_step c name) "" ∅ w1) as Hiff.
    split.
    + intros [fuel Hterm]. apply Hiff. exists fuel. now rewrite <- Hrun.
    + intros Hstop. apply Hiff in Hstop as [fuel Hterm].
      exists fuel. now rewrite Hrun.
  - intros w Hall fuel. unfold GetApplications.
    exact (loop_diverges c _ _ _ appendApplications
             (fun err => (None, Some err)) (fun aggregate => (Some aggregate, None))
             _ (GetApplications_body_step c) fuel _ _ w Hall).
  - intros appName w Hall fuel. unfold GetServices.
    exact (loop_diverges c _ _ _ appendServices
             (fun err => (None, Some err)) (fun aggregate => (Some aggregate, None))
             _ (GetServices_body_step c appName) fuel _ _ w Hall).
  - intros name w w1 Hprobe Hall fuel.
    unfold GetProperties, bind. rewrite Hprobe. simpl.
    exact (loop_diverges c _ _ _
             (fun properties page =>
                rangeProperties (Properties page) properties)
             (fun err => (false, None, Some err))
             (fun properties => (true, Some properties, None))
             _ (GetProperties_body_step c name) fuel _ _ w1 Hall).
Qed.

End Termination.

(** The transport that always serves a page announcing a next one. *)
Lemma constant_always_more k : forall continueToken w,
  @pageAt _ _ Fixture.appsDecoder
    (Fixture.client (Fixture.constant (Fixture.okReply "apps-more")))
    "Applications/" (fun token => [withContinue token]) applicationsToken
    k continueToken w = Some (Fetched Fixture.appsMore).
Proof.
  induction k as [|k IH]; intros token w; cbn [pageAt];
    rewrite (@fetchPage_run _ _ Fixture.appsDecoder
               (Fixture.client (Fixture.constant (Fixture.okReply "apps-more")))
               (Fixture.constant (Fixture.okReply "apps-more"))
               "Applications/" [withContinue token] w
               (Fixture.okReply "apps-more") (net w) eq_refl eq_refl);
    simpl; [reflexivity | apply IH].
Qed.

Lemma pagination_terminates_iff_witness :
  exists w',
    @GetApplications _ Fixture.appsDecoder 3
      (Fixture.client (Fixture.constant (Fixture.okReply "apps-more")))
      (Fixture.world tt) = (OutOfFuel, w') /\
    length (requests w') = 3.
Proof.
  destruct (@pagination_terminates_iff _ Fixture.appsDecoder
              Fixture.servicesDecoder Fixture.propertiesDecoder
              (Fixture.client (Fixture.constant (Fixture.okReply "apps-more"))))
    as (_ & _ & _ & Hdiverges & _).
  apply (Hdiverges (Fixture.world tt)).
  intros k. exists Fixture.appsMore.
  split; [apply constant_always_more | discriminate].
Defined.

(** C9, as the sentence reads, fails: a body that does not decode ends
    the loop, although no fetch returned an error and no page carried an
    empty token. *)
Lemma pagination_stops_on_undecodable_body :
  let c := Fixture.client Fixture.scripted in
  let w := Fixture.world [Fixture.okReply "<html>"] in
  @GetApplications _ Fixture.appsDecoder 1 c w =
    (Returns (None, Some (ErrJSON "invalid character")),
     {| net := [];
        requests := [(GET, "http://localhost:19080/Applications/?api-version=3.0")];
        decodes := [JSONUnmarshal "<html>"] |}) /\
  ~ ((exists fuel,
        terminated (fst (@GetApplications _ Fixture.appsDecoder fuel c w))) <->
     (exists k f,
        @pageAt _ _ Fixture.appsDecoder c "Applications/"
          (fun token => [withContinue token]) applicationsToken k "" w = Some f /\
        emptyTokenOrFetchError applicationsToken f)).
Proof.
  split; [reflexivity|].
  intros [Hclaim _].
  destruct Hclaim as (k & f & Hat & Hstop); [exists 1; exact I|].
  destruct k as [|k]; vm_compute in Hat; [|discriminate].
  inversion Hat; subst f. exact Hstop.
Qed.

(** ** Properties under a name *)

Lemma rangeProperties_lookup (page : list Property) :
  forall (properties : gmap string string) key,
  rangeProperties page properties !! key =
  match last (valuesOf key (stringPairs page)) with
  | Some value => Some value
  | None => properties !! key
  end.
Proof.
  induction page as [|property rest IH]; intros properties key;
    [reflexivity|].
  unfold rangeProperties in *. simpl fold_left. rewrite IH.
  unfold stringPairs, valuesOf. simpl List.filter.
  fold (isStringProperty property).
  destruct (isStringProperty property); simpl; [|reflexivity].
  destruct (String.eqb_spec (Property_Name property) key) as [->|Hne]; simpl.
  - rewrite last_cons.
    destruct (last _); [reflexivity | apply lookup_insert_eq].
  - destruct (last _); [reflexivity | now apply lookup_insert_ne].
Qed.

Lemma rangeProperties_app (page1 page2 : list Property)
    (properties : gmap string string) :
  rangeProperties (page1 ++ page2) properties =
  rangeProperties page2 (rangeProperties page1 properties).
Proof. unfold rangeProperties. apply fold_left_app. Qed.

Lemma rangeProperties_pages (pages : list PropertiesListPage) :
  forall properties : gmap string string,
  fold_left (fun properties page => rangeProperties (Properties page) properties)
    pages properties =
  rangeProperties (concat (map Properties pages)) properties.
Proof.
  induction pages as [|page rest IH]; intros properties; simpl;
    [reflexivity|].
  rewrite IH, rangeProperties_app. reflexivity.
Qed.

Lemma In_valuesOf key value pairs :
  In value (valuesOf key pairs) <-> In (key, value) pairs.
Proof.
  unfold valuesOf. rewrite in_map_iff. split.
  - intros ([k v] & <- & Hin). apply filter_In in Hin as [Hin Hkey].
    apply String.eqb_eq in Hkey. simpl in *. now subst.
  - intros Hin. exists (key, value). split; [reflexivity|].
    apply filter_In. split; [exact Hin | apply String.eqb_refl].
Qed.

Lemma In_stringPairs key value properties :
  In (key, value) (stringPairs properties) <->
  exists property,
    In property properties /\
    PropValue_Kind (Property_Value property) = "String" /\
    Property_Name property = key /\
    PropValue_Data (Property_Value property) = value.
Proof.
  unfold stringPairs. rewrite in_map_iff. split.
  - intros (property & E & Hin). apply filter_In in Hin as [Hin Hkind].
    apply String.eqb_eq in Hkind. inversion E; subst. eauto.
  - intros (property & Hin & Hkind & <- & <-). exists property.
    split; [reflexivity|]. apply filter_In. split; [exact Hin|].
    now apply String.eqb_eq.
Qed.

Section Properties.
Context {T : Type} `{JSONDecoder PropertiesListPage}.
Implicit Type c : ServiceFabricClient T.

(** C3, as the code has it.  When the name exists and the remote side
    serves [pages], [GetProperties] returns [true], no error, and a map
    that holds, for every name borne by a property of kind ["String"]
    among the fetched ones, the data of the last such property in fetch
    order, and holds nothing else: every entry is the (Name, Value.Data)
    pair of a String property, every String property's name is a key, and
    properties of another kind add nothing.  When no two String
    properties share a name with different data, the map holds exactly
    the String pairs. *)
Theorem GetProperties_keeps_String_properties c h name w w1 pages :
  let fetched := concat (map Properties pages) in
  httpClient c = Some h ->
  nameExists c name w = (Returns (true, None), w1) ->
  servesPages h (propertiesURL c name) PropertiesListPage_ContinuationToken
    "" (net w1) pages ->
  exists (properties : gmap string string) w',
    (forall fuel, length pages <= fuel ->
       GetProperties fuel c name w =
       (Returns (true, Some properties, None), w')) /\
    (forall key,
       properties !! key = last (valuesOf key (stringPairs fetched))) /\
    (forall key value,
       properties !! key = Some value -> In (key, value) (stringPairs fetched)) /\
    (forall key value,
       In (key, value) (stringPairs fetched) -> is_Some (properties !! key)) /\
    ((forall key value1 value2,
        In (key, value1) (stringPairs fetched) ->
        In (key, value2) (stringPairs fetched) -> value1 = value2) ->
     forall key value,
       properties !! key = Some value <-> In (key, value) (stringPairs fetched)).
Proof.
  intros fetched Hc Hprobe Hserves.
  destruct (loop_serves c ("Names/" +:+ name +:+ "/$/GetProperties")
              (fun token => [withContinue token; withParam "IncludeValues" "true"])
              PropertiesListPage_ContinuationToken
              (fun properties page => rangeProperties (Properties page) properties)
              (fun err => (false, None, Some err))
              (fun properties => (true, Some properties, None))
              (GetProperties_body c name) (GetProperties_body_step c name)
              h pages "" ∅ w1 Hc Hserves)
    as (w' & Hdone & _ & _).
  assert (Hlookup : forall key,
            rangeProperties fetched ∅ !! key
            = last (valuesOf key (stringPairs fetched))).
  { intros key. rewrite rangeProperties_lookup, lookup_empty.
    destruct (last _); reflexivity. }
  assert (Hsound : forall key value,
            rangeProperties fetched ∅ !! key = Some value ->
            In (key, value) (stringPairs fetched)).
  { intros key value Hin. rewrite Hlookup in Hin.
    apply last_Some_elem_of, list_elem_of_In in Hin.
    now apply In_valuesOf. }
  assert (Hkeys : forall key value,
            In (key, value) (stringPairs fetched) ->
            is_Some (rangeProperties fetched ∅ !! key)).
  { intros key value Hin. rewrite Hlookup. apply last_is_Some.
    apply In_valuesOf in Hin. intros Hnil. rewrite Hnil in Hin. exact Hin. }
  exists (rangeProperties fetched ∅), w'.
  split; [|split; [|split; [|split]]]; try assumption.
  - intros fuel Hfuel. unfold GetProperties, bind. rewrite Hprobe. simpl.
    rewrite (Hdone fuel Hfuel), rangeProperties_pages. reflexivity.
  - intros Hfunctional key value. split; [apply Hsound|].
    intros Hin. destruct (Hkeys _ _ Hin) as [value' Hvalue'].
    rewrite Hvalue'. f_equal.
    exact (Hfunctional _ _ _ (Hsound _ _ Hvalue') Hin).
Qed.

End Properties.

Lemma GetProperties_keeps_String_properties_witness :
  exists w',
    @GetProperties _ Fixture.propertiesDecoder 2
      (Fixture.client Fixture.scripted) "fabric:/app1"
      (Fixture.world [Fixture.okReply ""; Fixture.okReply "properties-1";
                      Fixture.okReply "properties-2"]) =
    (Returns (true, Some (<["c" := "z"]> {["a" := "x"]}), None), w').
Proof.
  destruct (@GetProperties_keeps_String_properties _ Fixture.propertiesDecoder
              (Fixture.client Fixture.scripted) Fixture.scripted "fabric:/app1"
              (Fixture.world [Fixture.okReply ""; Fixture.okReply "properties-1";
                              Fixture.okReply "properties-2"])
              {| net := [Fixture.okReply "properties-1";
                         Fixture.okReply "properties-2"];
                 requests := [(GET, "http://localhost:19080/Names/fabric:/app1?api-version=3.0")];
                 decodes := [] |}
              [Fixture.propertiesPage1; Fixture.propertiesPage2])
    as (properties & w' & Hdone & _).
  - reflexivity.
  - reflexivity.
  - simpl. repeat split; discriminate.
  - exists w'. rewrite (Hdone 2 (le_n 2)) at 1.
    pose proof (Hdone 2 (le_n 2)) as Hrun.
    vm_compute in Hrun. inversion Hrun. reflexivity.
Defined.

(** C3, as the sentence reads, fails: of two String properties fetched
    under one name, the map keeps the later one only, so the pair of the
    earlier one is not in it. *)
Lemma GetProperties_overwrites_same_name :
  let c := Fixture.client Fixture.scripted in
  let w := Fixture.world [Fixture.okReply "";
                          Fixture.okReply "properties-renamed"] in
  fst (@GetProperties _ Fixture.propertiesDecoder 1 c "fabric:/app1" w) =
    Returns (true, Some {["a" := "y"]}, None) /\
  ~ (forall key value,
       ({["a" := "y"]} : gmap string string) !! key = Some value <->
       In (key, value) (stringPairs (Properties Fixture.propertiesRenamed))).
Proof.
  split; [vm_compute; reflexivity|].
  intros Hclaim.
  destruct (Hclaim "a" "x") as [_ Hback].
  assert (Hin : In ("a", "x") (stringPairs (Properties Fixture.propertiesRenamed)))
    by (left; reflexivity).
  apply Hback in Hin. rewrite lookup_singleton_eq in Hin. discriminate.
Qed.

(** A trip that fetched a page is a [getHTTP] without error followed by a
    successful [json.Unmarshal] of what it returned. *)
Lemma fetchPage_fetched_inv {T P} `{JSONDecoder P} (c : ServiceFabricClient T)
    basePath paramsFuncs w (page : P) w1 :
  fetchPage c basePath paramsFuncs w = (Returns (Fetched page), w1) ->
  exists res w0,
    getHTTP c basePath paramsFuncs w = (Returns (res, None), w0) /\
    jsonUnmarshal res w0 = (Returns (inr page), w1).
Proof.
  unfold fetchPage, bind.
  destruct (getHTTP c basePath paramsFuncs w) as [[[res [err|]]|] w0];
    try discriminate.
  intros Hdecode. exists res, w0. split; [reflexivity|].
  destruct (jsonUnmarshal res w0) as [[[detail|page']|] w2];
    try discriminate.
  inversion Hdecode; subst. reflexivity.
Qed.

(** ** Service extensions *)

Section Extensions.
Context {T : Type} `{JSONDecoder (list ServiceType)}.
Variable EqualFold : string -> string -> bool.
Implicit Type c : ServiceFabricClient T.

Section Target.
Context {R : Type} `{XMLDecoder R}.

Lemma rangeExtensions_first extensionKey extensions (response : R) (w : World T) :
  rangeExtensions EqualFold extensionKey extensions response w =
  match List.filter
          (fun extension => EqualFold (KeyValuePair_Key extension) extensionKey)
          extensions with
  | [] => (Returns None, w)
  | extension :: _ =>
      (Returns (Some (decodedInto extension response)),
       xmlLogged w (KeyValuePair_Value extension))
  end.
Proof.
  induction extensions as [|extension rest IH]; simpl; [reflexivity|].
  destruct (EqualFold _ _); [|exact IH].
  unfold bind, xmlUnmarshal, decodedInto, xmlLogged.
  destruct (xml_decode _ response) as [[detail|] response']; reflexivity.
Qed.

Lemma rangeServiceTypes_first serviceTypeName extensionKey serviceTypes
    (response : R) (w : World T) :
  rangeServiceTypes EqualFold serviceTypeName extensionKey serviceTypes
    response w =
  match matchingExtensions EqualFold serviceTypeName extensionKey serviceTypes with
  | [] => (Returns None, w)
  | extension :: _ =>
      (Returns (Some (decodedInto extension response)),
       xmlLogged w (KeyValuePair_Value extension))
  end.
Proof.
  induction serviceTypes as [|serviceTypeInfo rest IH]; simpl; [reflexivity|].
  destruct (String.eqb _ serviceTypeName); [|exact IH].
  unfold bind. rewrite rangeExtensions_first.
  destruct (List.filter _ _) as [|extension others]; [exact IH | reflexivity].
Qed.

(** No extension matches exactly when no service type of that name has an
    extension with a matching key. *)
Lemma matchingExtensions_nil serviceTypeName extensionKey serviceTypes :
  matchingExtensions EqualFold serviceTypeName extensionKey serviceTypes = [] <->
  (forall serviceTypeInfo extension,
     In serviceTypeInfo serviceTypes ->
     ServiceTypeName (ServiceType_ServiceTypeDescription serviceTypeInfo)
       = serviceTypeName ->
     In extension (Extensions (ServiceType_ServiceTypeDescription serviceTypeInfo)) ->
     EqualFold (KeyValuePair_Key extension) extensionKey = false).
Proof.
  unfold matchingExtensions. split.
  - intros Hnil info extension Hinfo Hname Hextension.
    destruct (EqualFold _ _) eqn:Hfold; [|reflexivity].
    assert (Hin : In extension [])
      by (rewrite <- Hnil; apply in_flat_map; exists info;
          split; [exact Hinfo|];
          rewrite (proj2 (String.eqb_eq _ _) Hname);
          apply filter_In; auto).
    destruct Hin.
  - intros Hnone.
    destruct (flat_map _ serviceTypes) as [|extension others] eqn:Hflat;
      [reflexivity|].
    assert (Hin : In extension (extension :: others)) by (left; reflexivity).
    rewrite <- Hflat in Hin. apply in_flat_map in Hin as (info & Hinfo & Hin).
    destruct (String.eqb_spec
                (ServiceTypeName (ServiceType_ServiceTypeDescription info))
                serviceTypeName) as [Hname|_]; [|destruct Hin].
    apply filter_In in Hin as [Hin Hfold].
    rewrite (Hnone info extension Hinfo Hname Hin) in Hfold. discriminate.
Qed.

(** After the fetch, the outcome is decided by the first matching
    extension. *)
Lemma GetServiceExtension_run c
    appType applicationVersion serviceTypeName extensionKey
    (response : R) w serviceTypes w1 :
  fetchPage c ("ApplicationTypes/" +:+ appType +:+ "/$/GetServiceTypes")
    [withParam "ApplicationTypeVersion" applicationVersion] w
    = (Returns (Fetched serviceTypes), w1) ->
  GetServiceExtension EqualFold c appType applicationVersion serviceTypeName
    extensionKey response w =
  match matchingExtensions EqualFold serviceTypeName extensionKey serviceTypes with
  | [] => (Returns (response, None), w1)
  | extension :: _ =>
      (Returns (decodedInto extension response),
       xmlLogged w1 (KeyValuePair_Value extension))
  end.
Proof.
  intros Hfetch.
  destruct (fetchPage_fetched_inv _ _ _ _ _ _ Hfetch) as (res & w0 & Hget & Hjson).
  unfold GetServiceExtension, bind. rewrite Hget, Hjson.
  rewrite rangeServiceTypes_first.
  destruct (matchingExtensions _ _ _ _); reflexivity.
Qed.

(** C4.  Once the service types are fetched: when no service type named
    [serviceTypeName] has an extension whose key equals [extensionKey]
    under [EqualFold] (in particular when no service type bears that
    name), [GetServiceExtension] returns no error, the response is the
    value the caller passed and the XML decoder is not called; when there
    is a match, the value of the first one, in the order of the list, is
    XML-decoded into the response, and the error is that of the
    decoder. *)
Theorem GetServiceExtension_first_match c
    appType applicationVersion serviceTypeName extensionKey
    (response : R) w serviceTypes w1 :
  fetchPage c ("ApplicationTypes/" +:+ appType +:+ "/$/GetServiceTypes")
    [withParam "ApplicationTypeVersion" applicationVersion] w
    = (Returns (Fetched serviceTypes), w1) ->
  ((forall serviceTypeInfo extension,
      In serviceTypeInfo serviceTypes ->
      ServiceTypeName (ServiceType_ServiceTypeDescription serviceTypeInfo)
        = serviceTypeName ->
      In extension
         (Extensions (ServiceType_ServiceTypeDescription serviceTypeInfo)) ->
      EqualFold (KeyValuePair_Key extension) extensionKey = false) ->
   GetServiceExtension EqualFold c appType applicationVersion serviceTypeName
     extensionKey response w = (Returns (response, None), w1)) /\
  ((forall serviceTypeInfo,
      In serviceTypeInfo serviceTypes ->
      ServiceTypeName (ServiceType_ServiceTypeDescription serviceTypeInfo)
        <> serviceTypeName) ->
   GetServiceExtension EqualFold c appType applicationVersion serviceTypeName
     extensionKey response w = (Returns (response, None), w1)) /\
  (forall extension others,
     matchingExtensions EqualFold serviceTypeName extensionKey serviceTypes
       = extension :: others ->
     GetServiceExtension EqualFold c appType applicationVersion serviceTypeName
       extensionKey response w =
     (Returns (decodedInto extension response),
      xmlLogged w1 (KeyValuePair_Value extension))).
Proof.
  intros Hfetch.
  pose proof (GetServiceExtension_run c appType applicationVersion
                serviceTypeName extensionKey response w _ _ Hfetch) as Hrun.
  assert (Hnone :
    (forall serviceTypeInfo extension,
       In serviceTypeInfo serviceTypes ->
       ServiceTypeName (ServiceType_ServiceTypeDescription serviceTypeInfo)
         = serviceTypeName ->
       In extension
          (Extensions (ServiceType_ServiceTypeDescription serviceTypeInfo)) ->
       EqualFold (KeyValuePair_Key extension) extensionKey = false) ->
    GetServiceExtension EqualFold c appType applicationVersion serviceTypeName
      extensionKey response w = (Returns (response, None), w1)).
  { intros Hnone. apply matchingExtensions_nil in Hnone.
    rewrite Hrun, Hnone. reflexivity. }
  split; [exact Hnone | split].
  - intros Hname. apply Hnone.
    intros info extension Hinfo Heq. destruct (Hname info Hinfo Heq).
  - intros extension others Hmatch. rewrite Hrun, Hmatch. reflexivity.
Qed.

End Target.

Lemma labels_lookup (labels : list LabelEntry) :
  forall (m : gmap string string) key,
  fold_left (fun m label => <[Label_Key label := Label_Value label]> m)
    labels m !! key =
  match last (valuesOf key
                (map (fun label => (Label_Key label, Label_Value label)) labels)) with
  | Some value => Some value
  | None => m !! key
  end.
Proof.
  induction labels as [|label rest IH]; intros m key; [reflexivity|].
  simpl fold_left. rewrite IH. unfold valuesOf. simpl.
  destruct (String.eqb_spec (Label_Key label) key) as [->|Hne]; simpl.
  - rewrite last_cons.
    destruct (last _); [reflexivity | apply lookup_insert_eq].
  - destruct (last _); [reflexivity | now apply lookup_insert_ne].
Qed.

Section LabelMap.
Context `{XMLDecoder ServiceExtensionLabels}.

(** C10.  When [GetServiceExtensionMap] returns without error, the map it
    returns is not [nil].  It is built from the labels that
    [GetServiceExtension] left in a fresh [ServiceExtensionLabels]: each
    key is mapped to the value of the last label bearing it, and the map
    is empty when there is no label.  Once the service types are
    fetched, these labels are what the XML decoder made of the first
    matching extension's value, and there are none (the map is empty)
    when no extension matches. *)
Theorem GetServiceExtensionMap_labels c service app extensionKey w m w' :
  GetServiceExtensionMap EqualFold c service app extensionKey w
    = (Returns (m, None), w') ->
  exists extensionData (labels : gmap string string),
    m = Some labels /\
    GetServiceExtension EqualFold c (ApplicationItem_TypeName app)
      (ApplicationItem_TypeVersion app) (ServiceItem_TypeName service)
      extensionKey zeroServiceExtensionLabels w
      = (Returns (extensionData, None), w') /\
    (forall key,
       labels !! key = last (valuesOf key (labelPairs extensionData))) /\
    (Label extensionData = [] -> labels = ∅) /\
    (forall serviceTypes w1,
       fetchPage c
         ("ApplicationTypes/" +:+ ApplicationItem_TypeName app
            +:+ "/$/GetServiceTypes")
         [withParam "ApplicationTypeVersion" (ApplicationItem_TypeVersion app)] w
         = (Returns (Fetched serviceTypes), w1) ->
       match matchingExtensions EqualFold (ServiceItem_TypeName service)
               extensionKey serviceTypes with
       | [] => extensionData = zeroServiceExtensionLabels /\ labels = ∅
       | extension :: _ =>
           xml_decode (KeyValuePair_Value extension) zeroServiceExtensionLabels
             = (None, extensionData)
       end).
Proof.
  unfold GetServiceExtensionMap, bind. intros Hmap.
  destruct (GetServiceExtension EqualFold c _ _ _ extensionKey
              zeroServiceExtensionLabels w)
    as [[[extensionData [err|]]|] w2] eqn:Hextension; try discriminate.
  assert (Hlabels :
    match Label extensionData with
    | [] => ∅
    | _ :: _ =>
        fold_left (fun m label => <[Label_Key label := Label_Value label]> m)
          (Label extensionData) (∅ : gmap string string)
    end =
    fold_left (fun m label => <[Label_Key label := Label_Value label]> m)
      (Label extensionData) ∅)
    by (destruct (Label extensionData); reflexivity).
  rewrite Hlabels in Hmap. inversion Hmap; subst m w2; clear Hmap Hlabels.
  do 2 eexists. split; [reflexivity|]. split; [reflexivity|].
  split; [|split].
  - intros key. unfold labelPairs. rewrite labels_lookup, lookup_empty.
    destruct (last _); reflexivity.
  - intros Hnil. rewrite Hnil. reflexivity.
  - intros serviceTypes w1 Hfetch.
    rewrite (GetServiceExtension_run c _ _ _ _ _ w _ _ Hfetch) in Hextension.
    destruct (matchingExtensions _ _ _ _) as [|extension others].
    + inversion Hextension; subst. split; reflexivity.
    + unfold decodedInto in Hextension.
      destruct (xml_decode _ _) as [[detail|] decoded];
        inversion Hextension; subst. reflexivity.
Qed.

End LabelMap.
End Extensions.

Lemma GetServiceExtension_first_match_witness :
  let c := Fixture.client Fixture.scripted in
  let w := Fixture.world [Fixture.okReply "service-types"] in
  let url := "http://localhost:19080/ApplicationTypes/app1Type/$/GetServiceTypes?api-version=3.0&ApplicationTypeVersion=1.0.0" in
  @GetServiceExtension _ Fixture.serviceTypesDecoder Fixture.asciiEqualFold
    _ Fixture.labelsDecoder c "app1Type" "1.0.0" "WebType" "traefik"
    zeroServiceExtensionLabels w =
  (Returns (Fixture.webLabels, None),
   {| net := []; requests := [(GET, url)];
      decodes := [JSONUnmarshal "service-types"; XMLUnmarshal "labels-web"] |}) /\
  @GetServiceExtension _ Fixture.serviceTypesDecoder Fixture.asciiEqualFold
    _ Fixture.labelsDecoder c "app1Type" "1.0.0" "QueueType" "traefik"
    Fixture.webLabels w =
  (Returns (Fixture.webLabels, None),
   {| net := []; requests := [(GET, url)];
      decodes := [JSONUnmarshal "service-types"] |}).
Proof.
  intros c w url. split.
  - destruct (@GetServiceExtension_first_match _ Fixture.serviceTypesDecoder
                Fixture.asciiEqualFold _ Fixture.labelsDecoder c
                "app1Type" "1.0.0" "WebType" "traefik"
                zeroServiceExtensionLabels w Fixture.serviceTypes
                {| net := []; requests := [(GET, url)];
                   decodes := [JSONUnmarshal "service-types"] |} eq_refl)
      as (_ & _ & Hfirst).
    exact (Hfirst _ _ eq_refl).
  - destruct (@GetServiceExtension_first_match _ Fixture.serviceTypesDecoder
                Fixture.asciiEqualFold _ Fixture.labelsDecoder c
                "app1Type" "1.0.0" "QueueType" "traefik"
                Fixture.webLabels w Fixture.serviceTypes
                {| net := []; requests := [(GET, url)];
                   decodes := [JSONUnmarshal "service-types"] |} eq_refl)
      as (_ & Hname & _).
    apply Hname. intros info [<-|[<-|[]]]; discriminate.
Defined.

Lemma GetServiceExtensionMap_labels_witness :
  exists extensionData (labels : gmap string string),
    Some (<["env" := "prod"]> (<["port" := "80"]> {["env" := "test"]}))
      = Some labels /\
    labels !! "env" = Some "prod" /\
    Label extensionData = Label Fixture.webLabels.
Proof.
  destruct (@GetServiceExtensionMap_labels _ Fixture.serviceTypesDecoder
              Fixture.asciiEqualFold Fixture.labelsDecoder
              (Fixture.client Fixture.scripted)
              (Fixture.service "app1/web") (Fixture.app "app1") "traefik"
              (Fixture.world [Fixture.okReply "service-types"])
              (Some (<["env" := "prod"]> (<["port" := "80"]> {["env" := "test"]})))
              {| net := [];
                 requests := [(GET, "http://localhost:19080/ApplicationTypes/app1Type/$/GetServiceTypes?api-version=3.0&ApplicationTypeVersion=1.0.0")];
                 decodes := [JSONUnmarshal "service-types";
                             XMLUnmarshal "labels-web"] |})
    as (extensionData & labels & Hmap & Hextension & Hlookup & _).
  - vm_compute. reflexivity.
  - exists extensionData, labels. split; [exact Hmap|].
    assert (HextensionData : extensionData = Fixture.webLabels)
      by (vm_compute in Hextension; inversion Hextension; reflexivity).
    subst extensionData. split; [|reflexivity].
    rewrite Hlookup. reflexivity.
Defined.

(** * Further properties of the code *)

(** ** More on the pagination loop *)

Section PagedLoopResults.
Context {T P A R : Type} `{JSONDecoder P}.
Variable c : ServiceFabricClient T.
Variable basePath : string.
Variable paramsFuncs : string -> list queryParamsFunc.
Variable tokenOf : P -> string.
Variable add : A -> P -> A.
Variable failed : Error -> R.
Variable finished : A -> R.
Variable body : string * A -> M T (LoopStep (string * A) R).

Hypothesis body_step : forall continueToken aggregate w,
  body (continueToken, aggregate) w =
  match fetchPage c basePath (paramsFuncs continueToken) w with
  | (Returns (FetchFailed err), w') => (Returns (Return (failed err)), w')
  | (Returns (DecodeFailed detail), w') =>
      (Returns (Return (failed (ErrJSON detail))), w')
  | (Returns (Fetched page), w') =>
      if String.eqb (tokenOf page) ""
      then (Returns (Return (finished (add aggregate page))), w')
      else (Returns (Next (tokenOf page, add aggregate page)), w')
  | (OutOfFuel, w') => (OutOfFuel, w')
  end.

(** What the loop returns is a failure or the finished aggregate, and the
    aggregate keeps whatever [add] keeps. *)
Lemma loop_result (I : A -> Prop) :
  (forall aggregate page, I aggregate -> I (add aggregate page)) ->
  forall fuel continueToken aggregate w r w',
  I aggregate ->
  forever fuel body (continueToken, aggregate) w = (Returns r, w') ->
  (exists err, r = failed err) \/
  (exists aggregate', I aggregate' /\ r = finished aggregate').
Proof.
  intros Hadd. induction fuel as [|fuel IH]; intros tok agg w r w' Hagg Hrun;
    [discriminate|].
  rewrite forever_S, body_step in Hrun.
  destruct (fetchPage c basePath (paramsFuncs tok) w) as [[f|] w1];
    [|discriminate].
  destruct f as [err|detail|page].
  - inversion Hrun; subst. left. eauto.
  - inversion Hrun; subst. left. eauto.
  - destruct (String.eqb (tokenOf page) "").
    + inversion Hrun; subst. right. eauto.
    + exact (IH _ _ _ _ _ (Hadd _ _ Hagg) Hrun).
Qed.

(** A trip that fails ends the loop with that failure, whatever was
    gathered before. *)
Lemma loop_fails k : forall continueToken aggregate w f,
  pageAt c basePath paramsFuncs tokenOf k continueToken w = Some f ->
  forall fuel, k < fuel ->
  match f with
  | FetchFailed err =>
      fst (forever fuel body (continueToken, aggregate) w)
        = Returns (failed err)
  | DecodeFailed detail =>
      fst (forever fuel body (continueToken, aggregate) w)
        = Returns (failed (ErrJSON detail))
  | Fetched _ => True
  end.
Proof.
  induction k as [|k IH]; intros tok agg w f Hat [|fuel] Hfuel; try lia;
    simpl in Hat;
    destruct (fetchPage c basePath (paramsFuncs tok) w) as [[f0|] w1] eqn:Hfetch;
    try discriminate.
  - inversion Hat; subst f0. rewrite forever_S, body_step, Hfetch.
    destruct f; [reflexivity | reflexivity | exact I].
  - destruct f0 as [err|detail|page]; try discriminate.
    destruct (String.eqb (tokenOf page) "") eqn:Htoken; [discriminate|].
    rewrite forever_S, body_step, Hfetch, Htoken.
    apply IH; [exact Hat | lia].
Qed.

(** Every request of the loop is a GET of the loop's own path, one per
    trip at most, and the first one is asked with the token the loop
    started with. *)
Lemma loop_requests fuel : forall continueToken aggregate w o w',
  forever fuel body (continueToken, aggregate) w = (o, w') ->
  exists tokens,
    length tokens <= fuel /\
    (tokens = [] \/ exists later, tokens = continueToken :: later) /\
    requests w' =
      requests w ++
      map (fun token => (GET, getURL c basePath (paramsFuncs token))) tokens.
Proof.
  induction fuel as [|fuel IH]; intros tok agg w o w' Hrun.
  - inversion Hrun; subst. exists []. simpl. rewrite app_nil_r. auto.
  - rewrite forever_S, body_step in Hrun.
    destruct (fetchPage c basePath (paramsFuncs tok) w) as [o1 w1] eqn:Hfetch.
    destruct (fetchPage_requests _ _ _ _ _ _ Hfetch) as [Hlog|(_ & -> & ->)].
    + assert (Hstop : w' = w1 ->
                exists tokens,
                  length tokens <= S fuel /\
                  (tokens = [] \/ exists later, tokens = tok :: later) /\
                  requests w' =
                    requests w ++
                    map (fun token => (GET, getURL c basePath (paramsFuncs token)))
                        tokens).
      { intros ->. exists [tok]. split; [simpl; lia|]. split; [eauto|exact Hlog]. }
      destruct o1 as [[err|detail|page]|];
        try (inversion Hrun; subst; now apply Hstop).
      destruct (String.eqb (tokenOf page) "");
        [inversion Hrun; subst; now apply Hstop|].
      destruct (IH _ _ _ _ _ Hrun) as (later & Hlen & _ & Hlog').
      exists (tok :: later). split; [simpl; lia|]. split; [eauto|].
      rewrite Hlog', Hlog, <- app_assoc. reflexivity.
    + inversion Hrun; subst. exists []. simpl. rewrite app_nil_r.
      split; [lia | auto].
Qed.

End PagedLoopResults.

(** ** URLs *)

Lemma concat_snoc (sep : string) (params : list string) (param : string) :
  params <> [] ->
  String.concat sep (params ++ [param]) =
  String.concat sep params +:+ sep +:+ param.
Proof.
  induction params as [|first rest IH]; intros Hne; [contradiction|].
  destruct rest as [|second rest]; [reflexivity|].
  change (first +:+ sep +:+ String.concat sep ((second :: rest) ++ [param]) =
          (first +:+ sep +:+ String.concat sep (second :: rest))
            +:+ sep +:+ param).
  rewrite IH by discriminate. rewrite !append_assoc. reflexivity.
Qed.

Lemma withParam_extends name value : extendsParams (withParam name value).
Proof. intros params. unfold withParam. eauto. Qed.

Lemma noOp_extends : extendsParams noOp.
Proof. intros params. exists []. unfold noOp. now rewrite app_nil_r. Qed.

Lemma withContinue_extends token : extendsParams (withContinue token).
Proof.
  unfold withContinue. destruct (Nat.eqb _ _);
    [apply noOp_extends | apply withParam_extends].
Qed.

Lemma fold_extends (paramsFuncs : list queryParamsFunc) :
  Forall extendsParams paramsFuncs ->
  forall params, exists more,
    fold_left (fun params paramsFunc => paramsFunc params) paramsFuncs params
    = params ++ more.
Proof.
  induction 1 as [|paramsFunc rest Hfirst _ IH]; intros params; simpl.
  - exists []. now rewrite app_nil_r.
  - destruct (Hfirst params) as [more1 ->].
    destruct (IH (params ++ more1)) as [more2 ->].
    exists (more1 ++ more2). now rewrite app_assoc.
Qed.

Section URLs.
Context {T : Type}.
Implicit Type c : ServiceFabricClient T.

(** X1.  Whatever parameter functions of the file are passed, the URL starts
    with [{endpoint}/{basePath}?api-version={version}], and what follows,
    if anything, starts with [&]. *)
Theorem getURL_api_version_first c basePath paramsFuncs :
  Forall extendsParams paramsFuncs ->
  exists rest,
    getURL c basePath paramsFuncs =
      (endpoint c +:+ "/" +:+ basePath +:+ "?api-version=" +:+ apiVersion c)
        +:+ rest /\
    (rest = "" \/ exists rest', rest = "&" +:+ rest').
Proof.
  intros Hextends. unfold getURL.
  destruct (fold_extends _ Hextends ["api-version=" +:+ apiVersion c])
    as [more ->].
  destruct more as [|param more].
  - exists "". split; [|left; reflexivity].
    simpl app. simpl String.concat.
    rewrite !append_assoc, append_empty_r. reflexivity.
  - exists ("&" +:+ String.concat "&" (param :: more)).
    split; [|right; eauto].
    change (String.concat "&" (["api-version=" +:+ apiVersion c] ++ param :: more))
      with (("api-version=" +:+ apiVersion c) +:+ "&"
              +:+ String.concat "&" (param :: more)).
    rewrite !append_assoc. reflexivity.
Qed.

Lemma getURL_snoc c basePath paramsFuncs name value :
  Forall extendsParams paramsFuncs ->
  getURL c basePath (paramsFuncs ++ [withParam name value]) =
  getURL c basePath paramsFuncs +:+ "&" +:+ name +:+ "=" +:+ value.
Proof.
  intros Hextends. unfold getURL. rewrite fold_left_app. simpl fold_left.
  destruct (fold_extends _ Hextends ["api-version=" +:+ apiVersion c])
    as [more Hmore].
  unfold queryParamsFunc in *. rewrite Hmore.
  unfold withParam. rewrite concat_snoc
    by (intros E; apply app_eq_nil in E as [E _]; discriminate E).
  rewrite !append_assoc. reflexivity.
Qed.

(** X2.  Parameters follow [api-version] in the order of the call, each as
    [&name=value]; the continuation token is one of them when it is not
    empty and is left out altogether when it is. *)
Theorem getURL_appends_in_order c basePath paramsFuncs :
  Forall extendsParams paramsFuncs ->
  (forall name value,
     getURL c basePath (paramsFuncs ++ [withParam name value]) =
     getURL c basePath paramsFuncs +:+ "&" +:+ name +:+ "=" +:+ value) /\
  (forall token,
     getURL c basePath (paramsFuncs ++ [withContinue token]) =
     if String.eqb token "" then getURL c basePath paramsFuncs
     else getURL c basePath paramsFuncs +:+ "&continue=" +:+ token).
Proof.
  intros Hextends. split.
  - intros name value. now apply getURL_snoc.
  - intros token. unfold withContinue. destruct token as [|ch token].
    + simpl. unfold getURL. rewrite fold_left_app. reflexivity.
    + simpl. now rewrite getURL_snoc.
Qed.

(** X3.  Names and values go into the URL as they are: a value that contains
    [&name2=value2] gives the URL of two parameters. *)
Theorem getURL_does_not_escape c basePath paramsFuncs name value name2 value2 :
  Forall extendsParams paramsFuncs ->
  getURL c basePath
    (paramsFuncs ++ [withParam name (value +:+ "&" +:+ name2 +:+ "=" +:+ value2)]) =
  getURL c basePath
    (paramsFuncs ++ [withParam name value; withParam name2 value2]).
Proof.
  intros Hextends.
  change (paramsFuncs ++ [withParam name value; withParam name2 value2])
    with (paramsFuncs ++ [withParam name value] ++ [withParam name2 value2]).
  rewrite app_assoc.
  rewrite (getURL_snoc c basePath (paramsFuncs ++ [withParam name value])).
  - rewrite !getURL_snoc by assumption. rewrite !append_assoc. reflexivity.
  - apply Forall_app. split; [assumption|].
    constructor; [apply withParam_extends | constructor].
Qed.

End URLs.

Lemma getURL_api_version_first_witness :
  exists rest,
    getURL (Fixture.client Fixture.scripted) "Names/app1/$/GetProperties"
      [withContinue "b"; withParam "IncludeValues" "true"] =
    "http://localhost:19080/Names/app1/$/GetProperties?api-version=3.0" +:+ rest /\
    (rest = "" \/ exists rest', rest = "&" +:+ rest').
Proof.
  apply (getURL_api_version_first (Fixture.client Fixture.scripted)
           "Names/app1/$/GetProperties"
           [withContinue "b"; withParam "IncludeValues" "true"]).
  repeat constructor; [apply withContinue_extends | apply withParam_extends].
Defined.

Lemma getURL_appends_in_order_witness :
  getURL (Fixture.client Fixture.scripted) "Applications/"
    ([noOp] ++ [withContinue "app2"]) =
  "http://localhost:19080/Applications/?api-version=3.0&continue=app2".
Proof.
  destruct (getURL_appends_in_order (Fixture.client Fixture.scripted)
              "Applications/" [noOp]) as [_ Htoken].
  - repeat constructor. apply noOp_extends.
  - exact (Htoken "app2").
Defined.

Lemma getURL_does_not_escape_witness :
  getURL (Fixture.client Fixture.scripted) "Applications/"
    ([] ++ [withParam "continue" ("a" +:+ "&" +:+ "api-version" +:+ "=" +:+ "9")]) =
  "http://localhost:19080/Applications/?api-version=3.0&continue=a&api-version=9".
Proof.
  rewrite (getURL_does_not_escape (Fixture.client Fixture.scripted)
             "Applications/" [] "continue" "a" "api-version" "9");
    [reflexivity | constructor].
Defined.

(** ** What the transport adapter returns *)

Lemma getHTTP_result_cases r url :
  (snd (getHTTP_result r url) = None <->
   run_err r = None /\ run_status r = StatusOK /\ run_text r <> "") /\
  (snd (getHTTP_result r url) = None ->
   fst (getHTTP_result r url) = run_text r) /\
  (snd (getHTTP_result r url) <> None -> fst (getHTTP_result r url) = "").
Proof.
  unfold getHTTP_result.
  destruct (run_err r) as [cause|].
  { simpl. repeat split; try discriminate; try reflexivity.
    intros (E & _); discriminate. }
  destruct (Z.eqb_spec (run_status r) StatusOK) as [Hok|Hbad]; simpl.
  - destruct (Nat.eqb _ _) eqn:Hlen; simpl.
    + apply length_zero_empty in Hlen.
      repeat split; try discriminate; try reflexivity.
      intros (_ & _ & Hne). contradiction.
    + assert (run_text r <> "")
        by (intros E; apply length_zero_empty in E; congruence).
      repeat split; auto. intros Hne. now destruct Hne.
  - repeat split; try discriminate; try reflexivity.
    intros (_ & E & _). contradiction.
Qed.

Section Adapter.
Context {T : Type}.
Implicit Type c : ServiceFabricClient T.

(** X4.  [getHTTP] issues exactly one request and returns either a body
    or an error, never both and never neither: there is no error exactly
    when the reply came without transport error, with status 200 and a
    non-empty body, and then the bytes returned are that body; with an
    error the bytes are [nil]. *)
Theorem getHTTP_body_or_error c h basePath paramsFuncs w r t' :
  httpClient c = Some h ->
  let url := getURL c basePath paramsFuncs in
  Run h GET url (net w) = (r, t') ->
  exists res err,
    getHTTP c basePath paramsFuncs w = (Returns (res, err), logged w t' GET url) /\
    (err = None <->
     run_err r = None /\ run_status r = StatusOK /\ run_text r <> "") /\
    (err = None -> res = run_text r /\ res <> "") /\
    (err <> None -> res = "").
Proof.
  intros Hc url Hrun.
  destruct (getHTTP_result_cases r url) as (Hiff & Hbody & Hnil).
  rewrite (getHTTP_run c h _ _ w r t' Hc Hrun). fold url.
  destruct (getHTTP_result r url) as [res err]. simpl in *.
  exists res, err.
  split; [reflexivity | split; [exact Hiff | split; [|exact Hnil]]].
  intros Hnone. split; [exact (Hbody Hnone)|].
  rewrite (Hbody Hnone). now apply Hiff in Hnone as (_ & _ & Hne).
Qed.

(** X5.  A transport error wins over whatever status and body came with it:
    the three adapters return the connectivity error, whose text contains
    the cause and the URL, and [getHTTPRaw] returns the status -1. *)
Theorem transport_error_is_ErrConnect c h basePath paramsFuncs w r t' cause :
  httpClient c = Some h ->
  run_err r = Some cause ->
  let url := getURL c basePath paramsFuncs in
  (Run h GET url (net w) = (r, t') ->
   getHTTP c basePath paramsFuncs w =
     (Returns ("", Some (ErrConnect cause url)), logged w t' GET url)) /\
  (Run h POST url (net w) = (r, t') ->
   postHTTP c basePath paramsFuncs w =
     (Returns ("", Some (ErrConnect cause url)), logged w t' POST url)) /\
  (Run h GET (getURL c basePath []) (net w) = (r, t') ->
   getHTTPRaw c basePath w =
     (Returns ((-1)%Z, Some (ErrConnect cause (getURL c basePath []))),
      logged w t' GET (getURL c basePath []))) /\
  occursIn cause (errorString (ErrConnect cause url)) /\
  occursIn url (errorString (ErrConnect cause url)).
Proof.
  intros Hc Herr url. split; [|split; [|split; [|split]]].
  - intros Hrun. rewrite (getHTTP_run c h _ _ w r t' Hc Hrun).
    unfold getHTTP_result. rewrite Herr. reflexivity.
  - intros Hrun. rewrite (postHTTP_run c h _ _ w r t' Hc Hrun).
    unfold getHTTP_result. rewrite Herr. reflexivity.
  - intros Hrun. rewrite (getHTTPRaw_run c h _ w r t' Hc Hrun), Herr.
    reflexivity.
  - exists "failed to connect to Service Fabric server ", (" on " +:+ url).
    reflexivity.
  - exists ("failed to connect to Service Fabric server " +:+ cause +:+ " on "),
      "".
    simpl errorString. rewrite !append_assoc, append_empty_r. reflexivity.
Qed.

End Adapter.

Lemma getHTTP_body_or_error_witness :
  exists res err,
    getHTTP (Fixture.client Fixture.scripted) "Applications/" [withContinue ""]
      (Fixture.world [Fixture.okReply "apps-2"]) =
    (Returns (res, err),
     {| net := [];
        requests := [(GET, "http://localhost:19080/Applications/?api-version=3.0")];
        decodes := [] |}) /\
    (err = None -> res = "apps-2" /\ res <> "").
Proof.
  destruct (getHTTP_body_or_error (Fixture.client Fixture.scripted)
              Fixture.scripted "Applications/" [withContinue ""]
              (Fixture.world [Fixture.okReply "apps-2"])
              (Fixture.okReply "apps-2") [] eq_refl eq_refl)
    as (res & err & Hrun & _ & Hbody & _).
  exists res, err. split; [exact Hrun | exact Hbody].
Defined.

Lemma transport_error_is_ErrConnect_witness :
  getHTTPRaw (Fixture.client Fixture.scripted) "Names/fabric:/app1"
    (Fixture.world []) =
  (Returns ((-1)%Z,
            Some (ErrConnect "connection refused"
                    "http://localhost:19080/Names/fabric:/app1?api-version=3.0")),
   {| net := [];
      requests := [(GET, "http://localhost:19080/Names/fabric:/app1?api-version=3.0")];
      decodes := [] |}).
Proof.
  destruct (transport_error_is_ErrConnect (Fixture.client Fixture.scripted)
              Fixture.scripted "Names/fabric:/app1" [] (Fixture.world [])
              Fixture.refused [] "connection refused" eq_refl eq_refl)
    as (_ & _ & Hraw & _).
  exact (Hraw eq_refl).
Defined.

(** ** A client without HTTP client *)

Section NilClient.
Context {T R : Type}.
Context `{JSONDecoder ApplicationItemsPage} `{JSONDecoder ServiceItemsPage}.
Context `{JSONDecoder (list ServiceType)} `{JSONDecoder PropertiesListPage}.
Context `{XMLDecoder R} `{XMLDecoder ServiceExtensionLabels}.
Variable EqualFold : string -> string -> bool.
Variable bytesEqualStatus : string -> Z -> bool.
Implicit Type c : ServiceFabricClient T.

(** X6.  [NewServiceFabricClient] accepts a [nil] HTTP client.  On a client
    that has none, every operation returns an error and leaves the world
    as it was: no request is issued and nothing is decoded.  The listing
    operations and [GetProperties] report "invalid http client provided",
    [GetServiceExtension] and [GetServiceExtensionMap] wrap it, and the
    health and delete operations report "error getting cluster health". *)
Theorem nil_client_fails_without_request c :
  httpClient c = None ->
  (forall fuel w,
     GetApplications (S fuel) c w = (Returns (None, Some ErrInvalidClient), w)) /\
  (forall fuel appName w,
     GetServices (S fuel) c appName w
       = (Returns (None, Some ErrInvalidClient), w)) /\
  (forall fuel name w,
     GetProperties fuel c name w
       = (Returns (false, None, Some ErrInvalidClient), w)) /\
  (forall w,
     GetClusterHealth c w = (Returns (false, Some ErrClusterHealth), w)) /\
  (forall id w,
     DeleteService bytesEqualStatus c id w
       = (Returns (false, Some ErrClusterHealth), w) /\
     DeleteApplication bytesEqualStatus c id w
       = (Returns (false, Some ErrClusterHealth), w)) /\
  (forall appType version serviceTypeName extensionKey (response : R) w,
     GetServiceExtension EqualFold c appType version serviceTypeName
       extensionKey response w
       = (Returns (response, Some (ErrRequestingExtensions ErrInvalidClient)), w)) /\
  (forall service app extensionKey w,
     GetServiceExtensionMap EqualFold c service app extensionKey w
       = (Returns (None, Some (ErrRequestingExtensions ErrInvalidClient)), w)).
Proof.
  intros Hc.
  assert (Hget : forall basePath paramsFuncs w,
            getHTTP c basePath paramsFuncs w
            = (Returns ("", Some ErrInvalidClient), w))
    by (intros; unfold getHTTP; rewrite Hc; reflexivity).
  assert (Hraw : forall basePath w,
            getHTTPRaw c basePath w
            = (Returns ((-1)%Z, Some ErrInvalidClient), w))
    by (intros; unfold getHTTPRaw; rewrite Hc; reflexivity).
  assert (Hpost : forall basePath paramsFuncs w,
            postHTTP c basePath paramsFuncs w
            = (Returns ("", Some ErrInvalidClient), w))
    by (intros; unfold postHTTP; rewrite Hc; reflexivity).
  repeat split; intros.
  - unfold GetApplications. rewrite forever_S.
    unfold GetApplications_body, bind. rewrite Hget. reflexivity.
  - unfold GetServices. rewrite forever_S.
    unfold GetServices_body, bind. rewrite Hget. reflexivity.
  - unfold GetProperties, nameExists, bind. rewrite Hraw. reflexivity.
  - unfold GetClusterHealth, bind. rewrite Hraw. reflexivity.
  - unfold DeleteService, bind. rewrite Hpost. reflexivity.
  - unfold DeleteApplication, bind. rewrite Hpost. reflexivity.
  - unfold GetServiceExtension, bind. rewrite Hget. reflexivity.
  - unfold GetServiceExtensionMap, GetServiceExtension, bind.
    rewrite Hget. reflexivity.
Qed.

End NilClient.

Lemma nil_client_fails_without_request_witness :
  exists c : ServiceFabricClient (list RunResult),
    NewServiceFabricClient None "http://localhost:19080" "" = (Some c, None) /\
    @GetApplications _ Fixture.appsDecoder 3 c
      (Fixture.world [Fixture.okReply "apps-2"]) =
    (Returns (None, Some ErrInvalidClient),
     Fixture.world [Fixture.okReply "apps-2"]).
Proof.
  eexists. split; [reflexivity|].
  destruct (@nil_client_fails_without_request (list RunResult)
              ServiceExtensionLabels
              Fixture.appsDecoder Fixture.servicesDecoder
              Fixture.serviceTypesDecoder Fixture.propertiesDecoder
              Fixture.labelsDecoder Fixture.labelsDecoder
              Fixture.asciiEqualFold (fun _ _ => true)
              {| endpoint := "http://localhost:19080";
                 apiVersion := DefaultAPIVersion;
                 httpClient := None |} eq_refl) as (Happs & _).
  exact (Happs 2 _).
Defined.

(** ** Probes that fail *)

Section FailingProbes.
Context {T : Type} `{JSONDecoder PropertiesListPage}.
Implicit Type c : ServiceFabricClient T.

(** X7.  [GetClusterHealth] never says why it failed: whenever it returns an
    error, the error is "error getting cluster health" and the boolean is
    [false]; in particular the connectivity error of the probe, with its
    cause and URL, is dropped. *)
Theorem GetClusterHealth_hides_cause c w :
  (exists healthy w',
     GetClusterHealth c w = (Returns (healthy, None), w')) \/
  (exists w',
     GetClusterHealth c w = (Returns (false, Some ErrClusterHealth), w')).
Proof.
  unfold GetClusterHealth, getHTTPRaw, bind, doRequest.
  destruct (httpClient c) as [h|]; [|right; eauto].
  destruct (Run h GET _ (net w)) as [r t'].
  destruct (run_err r); [right | left]; eauto.
Qed.

(** X8.  When the existence probe meets a transport error, [GetProperties]
    returns [(false, nil, err)] with the connectivity error of the probe,
    cause and URL included, after that one request: a name that could
    not be probed is an error, not an absent name. *)
Theorem GetProperties_probe_error c h name w r t' cause fuel :
  httpClient c = Some h ->
  Run h GET (getURL c ("Names/" +:+ name) []) (net w) = (r, t') ->
  run_err r = Some cause ->
  GetProperties fuel c name w =
  (Returns (false, None,
            Some (ErrConnect cause (getURL c ("Names/" +:+ name) []))),
   logged w t' GET (getURL c ("Names/" +:+ name) [])).
Proof.
  intros Hc Hrun Herr.
  unfold GetProperties, nameExists, bind.
  rewrite (getHTTPRaw_run c h _ w r t' Hc Hrun), Herr. reflexivity.
Qed.

End FailingProbes.

Lemma GetProperties_probe_error_witness :
  @GetProperties _ Fixture.propertiesDecoder 4
    (Fixture.client Fixture.scripted) "fabric:/app1" (Fixture.world []) =
  (Returns (false, None,
            Some (ErrConnect "connection refused"
                    "http://localhost:19080/Names/fabric:/app1?api-version=3.0")),
   {| net := [];
      requests := [(GET, "http://localhost:19080/Names/fabric:/app1?api-version=3.0")];
      decodes := [] |}).
Proof.
  apply (@GetProperties_probe_error _ Fixture.propertiesDecoder
           (Fixture.client Fixture.scripted) Fixture.scripted "fabric:/app1"
           (Fixture.world []) Fixture.refused [] "connection refused" 4);
    reflexivity.
Defined.

(** ** What the listing operations return *)

Lemma fold_append_services (pages : list ServiceItemsPage) : forall aggregate,
  fold_left appendServices pages aggregate =
  {| ServiceItemsPage_ContinuationToken :=
       ServiceItemsPage_ContinuationToken aggregate;
     ServiceItemsPage_Items :=
       ServiceItemsPage_Items aggregate
         ++ concat (map ServiceItemsPage_Items pages) |}.
Proof.
  induction pages as [|page rest IH]; intros agg; simpl.
  - rewrite app_nil_r. destruct agg; reflexivity.
  - rewrite IH. simpl. rewrite <- app_assoc. reflexivity.
Qed.

Section Listings.
Context {T : Type}.
Context `{JSONDecoder ApplicationItemsPage} `{JSONDecoder ServiceItemsPage}.
Context `{JSONDecoder PropertiesListPage}.
Implicit Type c : ServiceFabricClient T.

(** X9.  [GetApplications] and [GetServices] return a page or an error, never
    both and never neither, so the items gathered before a failure are
    not handed out; the page they return has no continuation token. *)
Theorem listing_returns_page_or_error c :
  (forall fuel w r w',
     GetApplications fuel c w = (Returns r, w') ->
     (exists err, r = (None, Some err)) \/
     (exists items,
        r = (Some {| ApplicationItemsPage_ContinuationToken := None;
                     ApplicationItemsPage_Items := items |}, None))) /\
  (forall fuel appName w r w',
     GetServices fuel c appName w = (Returns r, w') ->
     (exists err, r = (None, Some err)) \/
     (exists items,
        r = (Some {| ServiceItemsPage_ContinuationToken := None;
                     ServiceItemsPage_Items := items |}, None))).
Proof.
  split.
  - intros fuel w r w' Hrun. unfold GetApplications in Hrun.
    destruct (loop_result c "Applications/" (fun token => [withContinue token])
                applicationsToken appendApplications
                (fun err => (None, Some err))
                (fun aggregate => (Some aggregate, None))
                (GetApplications_body c) (GetApplications_body_step c)
                (fun aggregate =>
                   ApplicationItemsPage_ContinuationToken aggregate = None)
                (fun aggregate page Hagg => Hagg)
                fuel ""
                {| ApplicationItemsPage_ContinuationToken := None;
                   ApplicationItemsPage_Items := [] |}
                w r w' eq_refl Hrun)
      as [[err ->]|(aggregate & Htoken & ->)]; [left; eauto|].
    right. destruct aggregate as [token items]. simpl in Htoken. subst.
    eauto.
  - intros fuel appName w r w' Hrun. unfold GetServices in Hrun.
    destruct (loop_result c ("Applications/" +:+ appName +:+ "/$/GetServices")
                (fun token => [withContinue token])
                servicesToken appendServices
                (fun err => (None, Some err))
                (fun aggregate => (Some aggregate, None))
                (GetServices_body c appName) (GetServices_body_step c appName)
                (fun aggregate =>
                   ServiceItemsPage_ContinuationToken aggregate = None)
                (fun aggregate page Hagg => Hagg)
                fuel ""
                {| ServiceItemsPage_ContinuationToken := None;
                   ServiceItemsPage_Items := [] |}
                w r w' eq_refl Hrun)
      as [[err ->]|(aggregate & Htoken & ->)]; [left; eauto|].
    right. destruct aggregate as [token items]. simpl in Htoken. subst.
    eauto.
Qed.

(** X10.  [GetProperties] has three kinds of results: [(true, map, nil)] with a
    map that is not [nil], [(false, nil, nil)], and [(false, nil, err)].
    It never returns [true] or a map together with an error. *)
Theorem GetProperties_result_shape c fuel name w existed properties err w' :
  GetProperties fuel c name w = (Returns (existed, properties, err), w') ->
  (existed = true /\ is_Some properties /\ err = None) \/
  (existed = false /\ properties = None).
Proof.
  unfold GetProperties, bind.
  destruct (nameExists c name w) as [[[found [probeErr|]]|] w1];
    try discriminate.
  - intros Hrun. inversion Hrun; subst. right. auto.
  - destruct found; simpl.
    + intros Hrun.
      destruct (loop_result c ("Names/" +:+ name +:+ "/$/GetProperties")
                  (fun token =>
                     [withContinue token; withParam "IncludeValues" "true"])
                  PropertiesListPage_ContinuationToken
                  (fun properties page =>
                     rangeProperties (Properties page) properties)
                  (fun err => (false, None, Some err))
                  (fun properties => (true, Some properties, None))
                  (GetProperties_body c name) (GetProperties_body_step c name)
                  (fun _ => True) (fun _ _ _ => I)
                  fuel _ _ w1 _ w' I Hrun)
        as [[e E]|(m & _ & E)]; inversion E; subst.
      * right. auto.
      * left. eauto.
    + intros Hrun. inversion Hrun; subst. right. auto.
Qed.

End Listings.

Lemma listing_returns_page_or_error_witness :
  (exists err,
     (None, Some (ErrJSON "invalid character"))
     = (@None ApplicationItemsPage, Some err)) \/
  (exists items,
     (None, Some (ErrJSON "invalid character")) =
     (Some {| ApplicationItemsPage_ContinuationToken := None;
              ApplicationItemsPage_Items := items |}, None)).
Proof.
  destruct (@listing_returns_page_or_error _ Fixture.appsDecoder
              Fixture.servicesDecoder (Fixture.client Fixture.scripted))
    as [Happs _].
  apply (Happs 3 (Fixture.world [Fixture.okReply "apps-1"; Fixture.okReply "?"])
           _ (snd (@GetApplications _ Fixture.appsDecoder 3
                     (Fixture.client Fixture.scripted)
                     (Fixture.world [Fixture.okReply "apps-1";
                                     Fixture.okReply "?"])))).
  vm_compute. reflexivity.
Defined.

Lemma GetProperties_result_shape_witness :
  (false = true /\ is_Some (@None (gmap string string))
     /\ Some (ErrStatus 500
          "http://localhost:19080/Names/fabric:/app1/$/GetProperties?api-version=3.0&continue=b&IncludeValues=true")
        = None) \/
  (false = false /\ @None (gmap string string) = None).
Proof.
  apply (@GetProperties_result_shape _ Fixture.propertiesDecoder
           (Fixture.client Fixture.scripted) 3 "fabric:/app1"
           (Fixture.world [Fixture.okReply ""; Fixture.okReply "properties-1";
                           Fixture.statusReply 500 "late"])
           false None _
           (snd (@GetProperties _ Fixture.propertiesDecoder 3
                   (Fixture.client Fixture.scripted) "fabric:/app1"
                   (Fixture.world [Fixture.okReply "";
                                   Fixture.okReply "properties-1";
                                   Fixture.statusReply 500 "late"])))).
  vm_compute. reflexivity.
Defined.

(** ** Listing services, failing pages, and the requests issued *)

Section MoreListings.
Context {T : Type}.
Context `{JSONDecoder ApplicationItemsPage} `{JSONDecoder ServiceItemsPage}.
Context `{JSONDecoder PropertiesListPage}.
Implicit Type c : ServiceFabricClient T.

(** X11.  When the remote side answers the successive requests of [GetServices]
    with [pages], it returns, with no error, the items of all pages in
    the order they came, after exactly one request per page; each request
    asks [Applications/{appName}/$/GetServices] with the token of the
    page before. *)
Theorem GetServices_concatenates_pages c h appName w pages :
  httpClient c = Some h ->
  servesPages h (servicesURL c appName) servicesToken "" (net w) pages ->
  exists w',
    (forall fuel, length pages <= fuel ->
       GetServices fuel c appName w =
       (Returns
          (Some {| ServiceItemsPage_ContinuationToken := None;
                   ServiceItemsPage_Items :=
                     concat (map ServiceItemsPage_Items pages) |},
           None), w')) /\
    (forall fuel, fuel < length pages ->
       fst (GetServices fuel c appName w) = OutOfFuel) /\
    requests w' =
      requests w ++ urlsAsked (servicesURL c appName) servicesToken "" pages /\
    length (requests w') = length (requests w) + length pages.
Proof.
  intros Hc Hserves.
  destruct (loop_serves c ("Applications/" +:+ appName +:+ "/$/GetServices")
              (fun token => [withContinue token])
              servicesToken appendServices
              (fun err => (None, Some err))
              (fun aggregate => (Some aggregate, None))
              (GetServices_body c appName) (GetServices_body_step c appName)
              h pages ""
              {| ServiceItemsPage_ContinuationToken := None;
                 ServiceItemsPage_Items := [] |} w Hc Hserves)
    as (w' & Hdone & Hshort & Hlog).
  exists w'. split; [|split; [|split]].
  - intros fuel Hfuel. unfold GetServices.
    rewrite (Hdone fuel Hfuel), fold_append_services. reflexivity.
  - exact Hshort.
  - exact Hlog.
  - rewrite Hlog, length_app, length_urlsAsked. reflexivity.
Qed.

(** X12.  When the name exists and the remote side serves [pages],
    [GetProperties] issues the probe and then one request per page, each
    with [IncludeValues=true] after the token of the page before:
    N + 1 requests in all. *)
Theorem GetProperties_request_sequence c h name w r t' pages :
  httpClient c = Some h ->
  Run h GET (getURL c ("Names/" +:+ name) []) (net w) = (r, t') ->
  run_err r = None ->
  run_status r = StatusOK ->
  servesPages h (propertiesURL c name) PropertiesListPage_ContinuationToken
    "" t' pages ->
  forall fuel, length pages <= fuel ->
  exists result w',
    GetProperties fuel c name w = (Returns result, w') /\
    requests w' =
      requests w ++
      (GET, getURL c ("Names/" +:+ name) [])
        :: urlsAsked (propertiesURL c name)
             PropertiesListPage_ContinuationToken "" pages /\
    length (requests w') = length (requests w) + 1 + length pages.
Proof.
  intros Hc Hrun Herr Hstatus Hserves fuel Hfuel.
  destruct (loop_serves c ("Names/" +:+ name +:+ "/$/GetProperties")
              (fun token => [withContinue token; withParam "IncludeValues" "true"])
              PropertiesListPage_ContinuationToken
              (fun properties page => rangeProperties (Properties page) properties)
              (fun err => (false, None, Some err))
              (fun properties => (true, Some properties, None))
              (GetProperties_body c name) (GetProperties_body_step c name)
              h pages "" ∅
              (logged w t' GET (getURL c ("Names/" +:+ name) [])) Hc Hserves)
    as (w' & Hdone & _ & Hlog).
  eexists _, w'. split; [|split].
  - unfold GetProperties, nameExists, bind.
    rewrite (getHTTPRaw_run c h _ w r t' Hc Hrun), Herr, Hstatus. simpl.
    exact (Hdone fuel Hfuel).
  - rewrite Hlog. simpl. rewrite <- app_assoc. reflexivity.
  - rewrite Hlog. simpl. rewrite !length_app, length_urlsAsked. simpl. lia.
Qed.

(** X13.  A trip that fails ends the whole operation with that failure, however
    many pages were fetched before it: [GetApplications] and [GetServices]
    return [(nil, err)] and [GetProperties], although the name exists,
    returns [(false, nil, err)].  The error is the one [getHTTP] returned,
    or the deserialisation error with the decoder's detail. *)
Theorem failure_at_any_page c k fuel :
  k < fuel ->
  (forall w,
     (forall err,
        pageAt c "Applications/" (fun token => [withContinue token])
          applicationsToken k "" w = Some (FetchFailed err) ->
        fst (GetApplications fuel c w) = Returns (None, Some err)) /\
     (forall detail,
        pageAt c "Applications/" (fun token => [withContinue token])
          applicationsToken k "" w = Some (DecodeFailed detail) ->
        fst (GetApplications fuel c w) = Returns (None, Some (ErrJSON detail)))) /\
  (forall appName w,
     (forall err,
        pageAt c ("Applications/" +:+ appName +:+ "/$/GetServices")
          (fun token => [withContinue token]) servicesToken k "" w
          = Some (FetchFailed err) ->
        fst (GetServices fuel c appName w) = Returns (None, Some err)) /\
     (forall detail,
        pageAt c ("Applications/" +:+ appName +:+ "/$/GetServices")
          (fun token => [withContinue token]) servicesToken k "" w
          = Some (DecodeFailed detail) ->
        fst (GetServices fuel c appName w)
          = Returns (None, Some (ErrJSON detail)))) /\
  (forall name w w1,
     nameExists c name w = (Returns (true, None), w1) ->
     (forall err,
        pageAt c ("Names/" +:+ name +:+ "/$/GetProperties")
          (fun token => [withContinue token; withParam "IncludeValues" "true"])
          PropertiesListPage_ContinuationToken k "" w1 = Some (FetchFailed err) ->
        fst (GetProperties fuel c name w) = Returns (false, None, Some err)) /\
     (forall detail,
        pageAt c ("Names/" +:+ name +:+ "/$/GetProperties")
          (fun token => [withContinue token; withParam "IncludeValues" "true"])
          PropertiesListPage_ContinuationToken k "" w1
          = Some (DecodeFailed detail) ->
        fst (GetProperties fuel c name w)
          = Returns (false, None, Some (ErrJSON detail)))).
Proof.
  intros Hfuel. split; [|split].
  - intros w. split; intros e Hat; unfold GetApplications;
      exact (loop_fails c _ _ _ appendApplications
               (fun err => (None, Some err))
               (fun aggregate => (Some aggregate, None))
               _ (GetApplications_body_step c) k _ _ w _ Hat fuel Hfuel).
  - intros appName w. split; intros e Hat; unfold GetServices;
      exact (loop_fails c _ _ _ appendServices
               (fun err => (None, Some err))
               (fun aggregate => (Some aggregate, None))
               _ (GetServices_body_step c appName) k _ _ w _ Hat fuel Hfuel).
  - intros name w w1 Hprobe.
    split; intros e Hat; unfold GetProperties, bind; rewrite Hprobe; simpl;
      exact (loop_fails c _ _ _
               (fun properties page =>
                  rangeProperties (Properties page) properties)
               (fun err => (false, None, Some err))
               (fun properties => (true, Some properties, None))
               _ (GetProperties_body_step c name) k _ _ w1 _ Hat fuel Hfuel).
Qed.

End MoreListings.

Lemma GetServices_concatenates_pages_witness :
  exists w',
    @GetServices _ Fixture2.servicesDecoder 2
      (Fixture.client Fixture.scripted) "app1"
      (Fixture.world [Fixture.okReply "services-1";
                      Fixture.okReply "services-2"]) =
    (Returns
       (Some {| ServiceItemsPage_ContinuationToken := None;
                ServiceItemsPage_Items :=
                  [Fixture.service "app1/svc1"; Fixture.service "app1/svc2";
                   Fixture.service "app1/svc3"] |},
        None), w') /\
    requests w' =
      [(GET, "http://localhost:19080/Applications/app1/$/GetServices?api-version=3.0");
       (GET, "http://localhost:19080/Applications/app1/$/GetServices?api-version=3.0&continue=svc1")].
Proof.
  destruct (@GetServices_concatenates_pages _ Fixture2.servicesDecoder
              (Fixture.client Fixture.scripted) Fixture.scripted "app1"
              (Fixture.world [Fixture.okReply "services-1";
                              Fixture.okReply "services-2"])
              [Fixture.servicesPage1; Fixture2.servicesPage2])
    as (w' & Hdone & _ & Hlog & _).
  - reflexivity.
  - simpl. repeat split; discriminate.
  - exists w'. split; [exact (Hdone 2 (le_n 2)) | exact Hlog].
Defined.

Lemma GetProperties_request_sequence_witness :
  exists result w',
    @GetProperties _ Fixture.propertiesDecoder 2
      (Fixture.client Fixture.scripted) "fabric:/app1"
      (Fixture.world [Fixture.okReply ""; Fixture.okReply "properties-1";
                      Fixture.okReply "properties-2"]) = (Returns result, w') /\
    requests w' =
      [(GET, "http://localhost:19080/Names/fabric:/app1?api-version=3.0");
       (GET, "http://localhost:19080/Names/fabric:/app1/$/GetProperties?api-version=3.0&IncludeValues=true");
       (GET, "http://localhost:19080/Names/fabric:/app1/$/GetProperties?api-version=3.0&continue=b&IncludeValues=true")].
Proof.
  destruct (@GetProperties_request_sequence _ Fixture.propertiesDecoder
              (Fixture.client Fixture.scripted) Fixture.scripted "fabric:/app1"
              (Fixture.world [Fixture.okReply ""; Fixture.okReply "properties-1";
                              Fixture.okReply "properties-2"])
              (Fixture.okReply "")
              [Fixture.okReply "properties-1"; Fixture.okReply "properties-2"]
              [Fixture.propertiesPage1; Fixture.propertiesPage2]
              eq_refl eq_refl eq_refl eq_refl)
    with (fuel := 2) as (result & w' & Hrun & Hlog & _).
  - simpl. repeat split; discriminate.
  - apply le_n.
  - exists result, w'. split; [exact Hrun | exact Hlog].
Defined.

Lemma failure_at_any_page_witness :
  fst (@GetApplications _ Fixture.appsDecoder 5
         (Fixture.client Fixture.scripted)
         (Fixture.world [Fixture.okReply "apps-1";
                         Fixture.statusReply 503 "busy"])) =
  Returns (None,
           Some (ErrStatus 503
                   "http://localhost:19080/Applications/?api-version=3.0&continue=app2")).
Proof.
  destruct (@failure_at_any_page _ Fixture.appsDecoder Fixture.servicesDecoder
              Fixture.propertiesDecoder (Fixture.client Fixture.scripted) 1 5)
    as (Happs & _); [lia|].
  destruct (Happs (Fixture.world [Fixture.okReply "apps-1";
                                  Fixture.statusReply 503 "busy"]))
    as [Hfetch _].
  apply Hfetch. reflexivity.
Defined.

Section Requests.
Context {T : Type}.
Context `{JSONDecoder ApplicationItemsPage} `{JSONDecoder ServiceItemsPage}.
Context `{JSONDecoder PropertiesListPage}.
Implicit Type c : ServiceFabricClient T.

(** X14.  Whatever the remote side answers and however a listing ends, the
    requests it has issued are GETs of its own path, one per trip at
    most, the first of them with no [continue] parameter.  For
    [GetProperties] they come after the one GET of the probe. *)
Theorem listings_only_GET_their_path c :
  (forall fuel w o w',
     GetApplications fuel c w = (o, w') ->
     exists tokens,
       length tokens <= fuel /\
       (tokens = [] \/ exists later, tokens = "" :: later) /\
       requests w' =
         requests w ++ map (fun token => (GET, applicationsURL c token)) tokens) /\
  (forall fuel appName w o w',
     GetServices fuel c appName w = (o, w') ->
     exists tokens,
       length tokens <= fuel /\
       (tokens = [] \/ exists later, tokens = "" :: later) /\
       requests w' =
         requests w
           ++ map (fun token => (GET, servicesURL c appName token)) tokens) /\
  (forall fuel name w o w',
     GetProperties fuel c name w = (o, w') ->
     requests w' = requests w \/
     exists tokens,
       length tokens <= fuel /\
       (tokens = [] \/ exists later, tokens = "" :: later) /\
       requests w' =
         requests w ++
         (GET, getURL c ("Names/" +:+ name) [])
           :: map (fun token => (GET, propertiesURL c name token)) tokens).
Proof.
  split; [|split].
  - intros fuel w o w' Hrun. unfold GetApplications in Hrun.
    exact (loop_requests c _ _ _ appendApplications
             (fun err => (None, Some err))
             (fun aggregate => (Some aggregate, None))
             _ (GetApplications_body_step c) fuel _ _ w o w' Hrun).
  - intros fuel appName w o w' Hrun. unfold GetServices in Hrun.
    exact (loop_requests c _ _ _ appendServices
             (fun err => (None, Some err))
             (fun aggregate => (Some aggregate, None))
             _ (GetServices_body_step c appName) fuel _ _ w o w' Hrun).
  - intros fuel name w o w' Hrun.
    unfold GetProperties, nameExists, bind in Hrun.
    destruct (httpClient c) as [h|] eqn:Hc.
    + destruct (Run h GET (getURL c ("Names/" +:+ name) []) (net w))
        as [r t'] eqn:Hprobe.
      rewrite (getHTTPRaw_run c h _ w r t' Hc Hprobe) in Hrun.
      right.
      assert (Hstop : w' = logged w t' GET (getURL c ("Names/" +:+ name) []) ->
                exists tokens,
                  length tokens <= fuel /\
                  (tokens = [] \/ exists later, tokens = "" :: later) /\
                  requests w' =
                    requests w ++
                    (GET, getURL c ("Names/" +:+ name) [])
                      :: map (fun token => (GET, propertiesURL c name token))
                           tokens).
      { intros ->. exists []. split; [simpl; lia|]. split; [auto|reflexivity]. }
      destruct (run_err r); [inversion Hrun; subst; now apply Hstop|].
      destruct (run_status r =? StatusOK)%Z; simpl in Hrun;
        [|inversion Hrun; subst; now apply Hstop].
      destruct (loop_requests c _ _ _
                  (fun properties page =>
                     rangeProperties (Properties page) properties)
                  (fun err => (false, None, Some err))
                  (fun properties => (true, Some properties, None))
                  _ (GetProperties_body_step c name) fuel _ _ _ o w' Hrun)
        as (tokens & Hlen & Hfirst & Hlog).
      exists tokens. split; [exact Hlen|]. split; [exact Hfirst|].
      rewrite Hlog. simpl. rewrite <- app_assoc. reflexivity.
    + unfold getHTTPRaw in Hrun. rewrite Hc in Hrun.
      inversion Hrun; subst. left. reflexivity.
Qed.

End Requests.

Lemma listings_only_GET_their_path_witness :
  exists tokens,
    length tokens <= 9 /\
    (tokens = [] \/ exists later, tokens = "" :: later) /\
    requests
      (snd (@GetApplications _ Fixture.appsDecoder 9
              (Fixture.client Fixture.scripted)
              (Fixture.world [Fixture.okReply "apps-1"]))) =
    [] ++ map (fun token =>
                 (GET, applicationsURL (Fixture.client Fixture.scripted) token))
              tokens.
Proof.
  destruct (@listings_only_GET_their_path _ Fixture.appsDecoder
              Fixture.servicesDecoder Fixture.propertiesDecoder
              (Fixture.client Fixture.scripted)) as (Happs & _).
  apply (Happs 9 (Fixture.world [Fixture.okReply "apps-1"])
           (fst (@GetApplications _ Fixture.appsDecoder 9
                   (Fixture.client Fixture.scripted)
                   (Fixture.world [Fixture.okReply "apps-1"])))).
  vm_compute. reflexivity.
Defined.

(** ** Errors and effects of the extension lookup *)

Lemma getHTTP_decodes {T} (c : ServiceFabricClient T) basePath paramsFuncs w o w' :
  getHTTP c basePath paramsFuncs w = (o, w') -> decodes w' = decodes w.
Proof.
  unfold getHTTP, bind, doRequest.
  destruct (httpClient c) as [h|]; [|intros E; inversion E; reflexivity].
  destruct (Run h GET _ (net w)) as [r t'].
  destruct (run_err r); [intros E; inversion E; reflexivity|].
  destruct (negb _); [intros E; inversion E; reflexivity|].
  destruct (Nat.eqb _ _); intros E; inversion E; reflexivity.
Qed.

Section ExtensionErrors.
Context {T : Type} `{JSONDecoder (list ServiceType)}.
Variable EqualFold : string -> string -> bool.
Implicit Type c : ServiceFabricClient T.

Section AnyTarget.
Context {R : Type} `{XMLDecoder R}.

(** X15.  The errors of [GetServiceExtension] are of three kinds.  A failed
    fetch is reported wrapped in "error requesting service extensions",
    with the response untouched and no decoder called; a body that is
    not JSON is reported as a deserialisation error, with the response
    untouched; only a failure of the XML decoder, reported with its
    detail, may leave the response changed. *)
Theorem GetServiceExtension_error_kinds c
    appType version serviceTypeName extensionKey (response : R) w
    response' err w' :
  GetServiceExtension EqualFold c appType version serviceTypeName extensionKey
    response w = (Returns (response', Some err), w') ->
  (exists cause,
     err = ErrRequestingExtensions cause /\ response' = response /\
     decodes w' = decodes w) \/
  (exists detail, err = ErrJSON detail /\ response' = response) \/
  (exists detail extension,
     err = ErrXML detail /\
     xml_decode (KeyValuePair_Value extension) response
       = (Some detail, response')).
Proof.
  unfold GetServiceExtension, bind.
  destruct (getHTTP c _ _ w) as [[[res [cause|]]|] w0] eqn:Hget;
    try discriminate.
  - intros E. inversion E; subst. left. exists cause.
    repeat split. exact (getHTTP_decodes _ _ _ _ _ _ Hget).
  - unfold jsonUnmarshal.
    destruct (json_decode res) as [detail|serviceTypes].
    + intros E. inversion E; subst. right. left. eauto.
    + rewrite rangeServiceTypes_first.
      destruct (matchingExtensions _ _ _ _) as [|extension others];
        [discriminate|].
      unfold decodedInto.
      destruct (xml_decode (KeyValuePair_Value extension) response)
        as [[detail|] decoded] eqn:Hxml; simpl; [|discriminate].
      intros E. inversion E; subst. right. right. eauto.
Qed.

(** X16.  On a client with an HTTP client, [GetServiceExtension] issues exactly
    one request, a GET of [ApplicationTypes/{appType}/$/GetServiceTypes]
    with the application type version as a parameter, and calls the XML
    decoder at most once, after the JSON decoder: of several matching
    extensions only one is decoded. *)
Theorem GetServiceExtension_one_request c h
    appType version serviceTypeName extensionKey (response : R) w o w' :
  httpClient c = Some h ->
  GetServiceExtension EqualFold c appType version serviceTypeName extensionKey
    response w = (o, w') ->
  requests w' =
    requests w ++
    [(GET, getURL c ("ApplicationTypes/" +:+ appType +:+ "/$/GetServiceTypes")
             [withParam "ApplicationTypeVersion" version])] /\
  (decodes w' = decodes w \/
   (exists body, decodes w' = decodes w ++ [JSONUnmarshal body]) \/
   (exists body value,
      decodes w' = decodes w ++ [JSONUnmarshal body; XMLUnmarshal value])).
Proof.
  intros Hc. unfold GetServiceExtension, bind.
  destruct (Run h GET
              (getURL c ("ApplicationTypes/" +:+ appType +:+ "/$/GetServiceTypes")
                 [withParam "ApplicationTypeVersion" version]) (net w))
    as [r t'] eqn:Hrun.
  rewrite (getHTTP_run c h _ _ w r t' Hc Hrun).
  destruct (getHTTP_result r _) as [res [cause|]].
  - intros E. inversion E; subst. split; [reflexivity | left; reflexivity].
  - unfold jsonUnmarshal, logged.
    destruct (json_decode res) as [detail|serviceTypes].
    + intros E. inversion E; subst. simpl.
      split; [reflexivity | right; left; eauto].
    + rewrite rangeServiceTypes_first.
      destruct (matchingExtensions _ _ _ _) as [|extension others];
        intros E; inversion E; subst; simpl.
      * split; [reflexivity | right; left; eauto].
      * split; [reflexivity | right; right].
        exists res, (KeyValuePair_Value extension).
        rewrite <- app_assoc. reflexivity.
Qed.

End AnyTarget.

(** X17.  [GetServiceExtensionMap] returns a map or an error, never both and
    never neither, and its errors are those of [GetServiceExtension] on a
    fresh [ServiceExtensionLabels]: labels decoded before the XML decoder
    failed are not handed out. *)
Theorem GetServiceExtensionMap_map_or_error
    `{XMLDecoder ServiceExtensionLabels} c service app extensionKey w r w' :
  GetServiceExtensionMap EqualFold c service app extensionKey w
    = (Returns r, w') ->
  (exists labels : gmap string string, r = (Some labels, None)) \/
  (exists err extensionData,
     r = (None, Some err) /\
     GetServiceExtension EqualFold c (ApplicationItem_TypeName app)
       (ApplicationItem_TypeVersion app) (ServiceItem_TypeName service)
       extensionKey zeroServiceExtensionLabels w
       = (Returns (extensionData, Some err), w')).
Proof.
  unfold GetServiceExtensionMap, bind.
  destruct (GetServiceExtension EqualFold c _ _ _ extensionKey
              zeroServiceExtensionLabels w)
    as [[[extensionData [err|]]|] w1]; try discriminate;
    intros E; inversion E; subst; [right | left]; eauto.
Qed.

End ExtensionErrors.

Lemma GetServiceExtension_error_kinds_witness :
  (exists cause,
     ErrXML "invalid character" = ErrRequestingExtensions cause /\
     zeroServiceExtensionLabels = zeroServiceExtensionLabels /\
     [JSONUnmarshal "service-types"; XMLUnmarshal "labels-api"] = []) \/
  (exists detail,
     ErrXML "invalid character" = ErrJSON detail /\
     zeroServiceExtensionLabels = zeroServiceExtensionLabels) \/
  (exists detail extension,
     ErrXML "invalid character" = ErrXML detail /\
     Fixture.labelsDecoder (KeyValuePair_Value extension)
       zeroServiceExtensionLabels = (Some detail, zeroServiceExtensionLabels)).
Proof.
  apply (@GetServiceExtension_error_kinds _ Fixture.serviceTypesDecoder
           Fixture.asciiEqualFold _ Fixture.labelsDecoder
           (Fixture.client Fixture.scripted) "app1Type" "1.0.0" "ApiType"
           "TRAEFIK" zeroServiceExtensionLabels
           (Fixture.world [Fixture.okReply "service-types"])
           zeroServiceExtensionLabels (ErrXML "invalid character")
           {| net := [];
              requests := [(GET, "http://localhost:19080/ApplicationTypes/app1Type/$/GetServiceTypes?api-version=3.0&ApplicationTypeVersion=1.0.0")];
              decodes := [JSONUnmarshal "service-types";
                          XMLUnmarshal "labels-api"] |}).
  reflexivity.
Defined.

Lemma GetServiceExtension_one_request_witness :
  requests
    (snd (@GetServiceExtension _ Fixture.serviceTypesDecoder
            Fixture.asciiEqualFold _ Fixture.labelsDecoder
            (Fixture.client Fixture.scripted) "app1Type" "1.0.0" "WebType"
            "traefik" zeroServiceExtensionLabels
            (Fixture.world [Fixture.okReply "service-types"]))) =
  [] ++ [(GET, "http://localhost:19080/ApplicationTypes/app1Type/$/GetServiceTypes?api-version=3.0&ApplicationTypeVersion=1.0.0")].
Proof.
  eapply (@GetServiceExtension_one_request _ Fixture.serviceTypesDecoder
            Fixture.asciiEqualFold _ Fixture.labelsDecoder
            (Fixture.client Fixture.scripted) Fixture.scripted
            "app1Type" "1.0.0" "WebType" "traefik" zeroServiceExtensionLabels
            (Fixture.world [Fixture.okReply "service-types"]));
    [reflexivity | vm_compute; reflexivity].
Defined.

Lemma GetServiceExtensionMap_map_or_error_witness :
  (exists labels : gmap string string,
     (@None (gmap string string), Some (ErrXML "invalid character"))
     = (Some labels, None)) \/
  (exists err extensionData,
     (@None (gmap string string), Some (ErrXML "invalid character"))
     = (None, Some err) /\
     @GetServiceExtension _ Fixture.serviceTypesDecoder Fixture.asciiEqualFold
       _ Fixture.labelsDecoder (Fixture.client Fixture.scripted)
       "app1Type" "1.0.0" "ApiType" "traefik" zeroServiceExtensionLabels
       (Fixture.world [Fixture.okReply "service-types"])
     = (Returns (extensionData, Some err),
        {| net := [];
           requests := [(GET, "http://localhost:19080/ApplicationTypes/app1Type/$/GetServiceTypes?api-version=3.0&ApplicationTypeVersion=1.0.0")];
           decodes := [JSONUnmarshal "service-types";
                       XMLUnmarshal "labels-api"] |})).
Proof.
  apply (@GetServiceExtensionMap_map_or_error _ Fixture.serviceTypesDecoder
           Fixture.asciiEqualFold Fixture.labelsDecoder
           (Fixture.client Fixture.scripted)
           {| ServiceItem_HasPersistedState := false;
              ServiceItem_HealthState := "Ok";
              ServiceItem_ID := "app1/api";
              ServiceItem_IsServiceGroup := false;
              ServiceItem_ManifestVersion := "1.0.0";
              ServiceItem_Name := "fabric:/app1/api";
              ServiceItem_ServiceKind := "Stateless";
              ServiceItem_ServiceStatus := "Active";
              ServiceItem_TypeName := "ApiType" |}
           (Fixture.app "app1") "traefik"
           (Fixture.world [Fixture.okReply "service-types"])).
  reflexivity.
Defined.

Section LaterServiceTypes.
Context {T R : Type} `{JSONDecoder (list ServiceType)} `{XMLDecoder R}.
Variable EqualFold : string -> string -> bool.
Implicit Type c : ServiceFabricClient T.

(** X18.  The search does not stop at the first service type that bears the
    name: when the service types before [serviceTypeInfo] that bear it
    have no extension with a matching key, and [serviceTypeInfo] bears it
    and has one, the first matching extension of [serviceTypeInfo] is the
    one decoded. *)
Theorem GetServiceExtension_searches_later_service_types c
    appType version serviceTypeName extensionKey (response : R) w w1
    before serviceTypeInfo after extension others :
  fetchPage c ("ApplicationTypes/" +:+ appType +:+ "/$/GetServiceTypes")
    [withParam "ApplicationTypeVersion" version] w
    = (Returns (Fetched (before ++ serviceTypeInfo :: after)), w1) ->
  (forall earlier candidate,
     In earlier before ->
     ServiceTypeName (ServiceType_ServiceTypeDescription earlier)
       = serviceTypeName ->
     In candidate (Extensions (ServiceType_ServiceTypeDescription earlier)) ->
     EqualFold (KeyValuePair_Key candidate) extensionKey = false) ->
  ServiceTypeName (ServiceType_ServiceTypeDescription serviceTypeInfo)
    = serviceTypeName ->
  List.filter
    (fun candidate => EqualFold (KeyValuePair_Key candidate) extensionKey)
    (Extensions (ServiceType_ServiceTypeDescription serviceTypeInfo))
    = extension :: others ->
  GetServiceExtension EqualFold c appType version serviceTypeName extensionKey
    response w =
  (Returns (decodedInto extension response),
   xmlLogged w1 (KeyValuePair_Value extension)).
Proof.
  intros Hfetch Hbefore Hname Hfilter.
  rewrite (GetServiceExtension_run EqualFold c _ _ _ _ response w _ _ Hfetch).
  apply (matchingExtensions_nil EqualFold) in Hbefore.
  unfold matchingExtensions in *.
  rewrite flat_map_app, Hbefore. simpl.
  rewrite (proj2 (String.eqb_eq _ _) Hname), Hfilter. reflexivity.
Qed.

End LaterServiceTypes.

Lemma GetServiceExtension_searches_later_service_types_witness :
  @GetServiceExtension _ Fixture2.serviceTypesDecoder Fixture.asciiEqualFold
    _ Fixture.labelsDecoder (Fixture.client Fixture.scripted)
    "app1Type" "1.0.0" "WebType" "traefik" zeroServiceExtensionLabels
    (Fixture.world [Fixture.okReply "service-types-twice"]) =
  (Returns (Fixture.webLabels, None),
   {| net := [];
      requests := [(GET, "http://localhost:19080/ApplicationTypes/app1Type/$/GetServiceTypes?api-version=3.0&ApplicationTypeVersion=1.0.0")];
      decodes := [JSONUnmarshal "service-types-twice";
                  XMLUnmarshal "labels-web"] |}).
Proof.
  apply (@GetServiceExtension_searches_later_service_types _ _
           Fixture2.serviceTypesDecoder Fixture.labelsDecoder
           Fixture.asciiEqualFold (Fixture.client Fixture.scripted)
           "app1Type" "1.0.0" "WebType" "traefik" zeroServiceExtensionLabels
           (Fixture.world [Fixture.okReply "service-types-twice"])
           {| net := [];
              requests := [(GET, "http://localhost:19080/ApplicationTypes/app1Type/$/GetServiceTypes?api-version=3.0&ApplicationTypeVersion=1.0.0")];
              decodes := [JSONUnmarshal "service-types-twice"] |}
           [Fixture.serviceType "WebType"
              [{| KeyValuePair_Key := "Other"; KeyValuePair_Value := "other" |}]]
           (Fixture.serviceType "WebType"
              [{| KeyValuePair_Key := "Traefik";
                  KeyValuePair_Value := "labels-web" |}])
           []
           {| KeyValuePair_Key := "Traefik"; KeyValuePair_Value := "labels-web" |}
           []).
  - reflexivity.
  - intros earlier candidate [<-|[]] _ [<-|[]]. reflexivity.
  - reflexivity.
  - reflexivity.
Defined.

(** ** The property map across pages *)

Lemma stringPairs_none (page : list Property) :
  (forall property,
     In property page ->
     PropValue_Kind (Property_Value property) <> "String") ->
  stringPairs page = [].
Proof.
  intros Hnone.
  destruct (stringPairs page) as [|[key value] rest] eqn:Hpairs; [reflexivity|].
  assert (Hin : In (key, value) (stringPairs page))
    by (rewrite Hpairs; left; reflexivity).
  apply In_stringPairs in Hin as (property & Hin & Hkind & _).
  destruct (Hnone property Hin Hkind).
Qed.

(** X19.  Reading a page never removes a name from the map and changes only
    the names borne by a String property of that page; a page without
    String properties leaves the map as it is.  Over two pages, the
    second page's String properties win and the first page's entries
    stay for every other name. *)
Theorem rangeProperties_only_adds (page : list Property)
    (properties : gmap string string) :
  (forall key value,
     properties !! key = Some value ->
     is_Some (rangeProperties page properties !! key)) /\
  (forall key,
     valuesOf key (stringPairs page) = [] ->
     rangeProperties page properties !! key = properties !! key) /\
  ((forall property,
      In property page ->
      PropValue_Kind (Property_Value property) <> "String") ->
   rangeProperties page properties = properties) /\
  (forall earlier key,
     rangeProperties (earlier ++ page) properties !! key =
     match last (valuesOf key (stringPairs page)) with
     | Some value => Some value
     | None => rangeProperties earlier properties !! key
     end).
Proof.
  split; [|split; [|split]].
  - intros key value Hkey. rewrite rangeProperties_lookup.
    destruct (last _); [eauto | rewrite Hkey; eauto].
  - intros key Hnone. rewrite rangeProperties_lookup, Hnone. reflexivity.
  - intros Hnone. apply map_eq. intros key.
    rewrite rangeProperties_lookup, (stringPairs_none page Hnone).
    reflexivity.
  - intros earlier key.
    rewrite rangeProperties_app, rangeProperties_lookup. reflexivity.
Qed.

Lemma rangeProperties_only_adds_witness :
  rangeProperties Fixture2.numbers {["a" := "x"]} = {["a" := "x"]} /\
  is_Some (rangeProperties (Properties Fixture.propertiesPage2)
             ({["a" := "x"]} : gmap string string) !! "a").
Proof.
  split.
  - destruct (rangeProperties_only_adds Fixture2.numbers {["a" := "x"]})
      as (_ & _ & Hsame & _).
    apply Hsame. intros property [<-|[<-|[<-|[]]]]; discriminate.
  - destruct (rangeProperties_only_adds (Properties Fixture.propertiesPage2)
                {["a" := "x"]}) as (Hkeeps & _).
    apply (Hkeeps "a" "x"). apply lookup_singleton_eq.
Defined.
